(** * leego: middleware dispatch, error handling and trailing-slash rewriting

    A shallow embedding of [leego.go] and [middleware/slash.go].  Go code
    that runs user-supplied functions is written in a small state monad
    [Go] over the part of the heap such code can reach; a run-time panic is
    an outcome of its own. *)

From stdpp Require Import gmap strings list fin_maps.
From Stdlib Require Import ZArith Ascii DecimalString.

Local Open Scope Z_scope.

(** ** Package [engine]: the request and response handles *)

Module engine.

(** Modelled from the spec: the request abstraction of the transport
    (method, path, headers, a settable rewritten URI); package [engine] is
    not among the sources.  [URL] is the object behind [Request.URL()]. *)
Record URL : Type := mkURL {
  Path : string;
  QueryString : string
}.

Record Request : Type := mkRequest {
  Method : string;
  url : URL;
  URI : string;
  Header : gmap string string
}.

(** Modelled from the spec: the response abstraction (a committed flag,
    status and body writers). *)
Record Response : Type := mkResponse {
  Committed : bool;
  Status : Z;
  Body : string
}.

Definition SetURI (uri : string) (r : Request) : Request :=
  mkRequest (Method r) (url r) uri (Header r).

Definition SetPath (p : string) (r : Request) : Request :=
  mkRequest (Method r) (mkURL p (QueryString (url r))) (URI r) (Header r).

(** [Header().Get(k)]: the empty string for an absent key. *)
Definition HeaderGet (k : string) (r : Request) : string :=
  default EmptyString (Header r !! k).

(** [WriteHeader(code)] commits the response; [Write] appends to the body. *)
Definition WriteHeader (code : Z) (r : Response) : Response :=
  mkResponse true code (Body r).

Definition Write (b : string) (r : Response) : Response :=
  mkResponse (Committed r) (Status r) (Body r +:+ b).

End engine.

(** ** Values of type [interface{}] *)

Inductive any : Type :=
| VString (s : string)
| VInt (z : Z)
| VBool (b : bool).

(** [fmt.Sprintf("%v", v)] *)
Definition Sprintf_v (v : any) : string :=
  match v with
  | VString s => s
  | VInt z => NilZero.string_of_int (Z.to_int z)
  | VBool true => "true"
  | VBool false => "false"
  end.

(** ** Errors *)

Record HTTPError : Type := mkHTTPError {
  Code : Z;
  Message : string
}.

(** A non-nil value of the interface [LeegoError]: a [*HTTPError], or any
    other implementation, of which only the text of [Error()] matters. *)
Inductive LeegoError : Type :=
| IsHTTPError (he : HTTPError)
| OtherError (text : string).

Definition Error (err : LeegoError) : string :=
  match err with
  | IsHTTPError he => Message he
  | OtherError text => text
  end.

(** The type assertion of [err] to a pointer to [HTTPError]. *)
Definition asHTTPError (err : LeegoError) : option HTTPError :=
  match err with
  | IsHTTPError he => Some he
  | OtherError _ => None
  end.

Module http.

Definition StatusInternalServerError : Z := 500.
Definition StatusNotFound : Z := 404.
Definition StatusMethodNotAllowed : Z := 405.
Definition StatusUnauthorized : Z := 401.
Definition StatusUnsupportedMediaType : Z := 415.
Definition StatusRequestEntityTooLarge : Z := 413.

(** [http.StatusText]: the table of Go's [net/http]; the empty string for a
    code it does not know. *)
Definition StatusText (code : Z) : string :=
  match code with
  | 100 => "Continue"
  | 101 => "Switching Protocols"
  | 102 => "Processing"
  | 103 => "Early Hints"
  | 200 => "OK"
  | 201 => "Created"
  | 202 => "Accepted"
  | 203 => "Non-Authoritative Information"
  | 204 => "No Content"
  | 205 => "Reset Content"
  | 206 => "Partial Content"
  | 207 => "Multi-Status"
  | 208 => "Already Reported"
  | 226 => "IM Used"
  | 300 => "Multiple Choices"
  | 301 => "Moved Permanently"
  | 302 => "Found"
  | 303 => "See Other"
  | 304 => "Not Modified"
  | 305 => "Use Proxy"
  | 307 => "Temporary Redirect"
  | 308 => "Permanent Redirect"
  | 400 => "Bad Request"
  | 401 => "Unauthorized"
  | 402 => "Payment Required"
  | 403 => "Forbidden"
  | 404 => "Not Found"
  | 405 => "Method Not Allowed"
  | 406 => "Not Acceptable"
  | 407 => "Proxy Authentication Required"
  | 408 => "Request Timeout"
  | 409 => "Conflict"
  | 410 => "Gone"
  | 411 => "Length Required"
  | 412 => "Precondition Failed"
  | 413 => "Request Entity Too Large"
  | 414 => "Request URI Too Long"
  | 415 => "Unsupported Media Type"
  | 416 => "Requested Range Not Satisfiable"
  | 417 => "Expectation Failed"
  | 418 => "I'm a teapot"
  | 421 => "Misdirected Request"
  | 422 => "Unprocessable Entity"
  | 423 => "Locked"
  | 424 => "Failed Dependency"
  | 425 => "Too Early"
  | 426 => "Upgrade Required"
  | 428 => "Precondition Required"
  | 429 => "Too Many Requests"
  | 431 => "Request Header Fields Too Large"
  | 451 => "Unavailable For Legal Reasons"
  | 500 => "Internal Server Error"
  | 501 => "Not Implemented"
  | 502 => "Bad Gateway"
  | 503 => "Service Unavailable"
  | 504 => "Gateway Timeout"
  | 505 => "HTTP Version Not Supported"
  | 506 => "Variant Also Negotiates"
  | 507 => "Insufficient Storage"
  | 508 => "Loop Detected"
  | 510 => "Not Extended"
  | 511 => "Network Authentication Required"
  | _ => ""
  end.

End http.

Definition HEAD : string := "HEAD".

Definition NewHTTPError (code : Z) (msg : list string) : HTTPError :=
  let he := mkHTTPError code (http.StatusText code) in
  match msg with
  | m :: _ => mkHTTPError (Code he) m
  | [] => he
  end.

Definition ErrNotFound : LeegoError :=
  IsHTTPError (NewHTTPError http.StatusNotFound []).
Definition ErrMethodNotAllowed : LeegoError :=
  IsHTTPError (NewHTTPError http.StatusMethodNotAllowed []).

(** ** The heap seen by handlers, and the [Go] monad *)

(** The fields of [echoContext] that code holding a [Context] reads and
    writes.  The [handler] field is kept in [echoContext] below, because the
    type of handlers mentions this record. *)
Record ctxState : Type := mkCtxState {
  request : option engine.Request;
  response : option engine.Response;
  pvalues : list string;
  data : gmap string any;
  lang : string
}.

(** What a handler can reach: the context of the request in flight, the
    [debug] flag of the [Leego] instance the context points back to, and the
    state of user code, here a journal to which test doubles append. *)
Record World : Type := mkWorld {
  ctx : ctxState;
  leego_debug : bool;
  journal : list string
}.

Inductive Outcome (A : Type) : Type :=
| Returned (a : A)
| Panicked (reason : string).
Arguments Returned {A} a.
Arguments Panicked {A} reason.

Definition Go (A : Type) : Type := World -> Outcome A * World.

#[global] Instance Go_ret : MRet Go := fun A a w => (Returned a, w).

#[global] Instance Go_bind : MBind Go := fun A B k m w =>
  match m w with
  | (Returned a, w') => k a w'
  | (Panicked r, w') => (Panicked r, w')
  end.

Definition panic {A : Type} (reason : string) : Go A :=
  fun w => (Panicked reason, w).

Definition get_ctx : Go ctxState := fun w => (Returned (ctx w), w).

Definition put_ctx (c : ctxState) : Go unit :=
  fun w => (Returned tt, mkWorld c (leego_debug w) (journal w)).

Definition record (line : string) : Go unit :=
  fun w => (Returned tt, mkWorld (ctx w) (leego_debug w) (journal w ++ [line])).

(** [nil] is [None]. *)
Definition HandlerFunc : Type := Go (option LeegoError).
Definition MiddlewareFunc : Type := HandlerFunc -> Go HandlerFunc.
Definition HTTPErrorHandler : Type := LeegoError -> Go unit.
Definition HTTPSuccessHandler : Type := Go unit.

Record echoContext : Type := mkEchoContext {
  state : ctxState;
  handler : HandlerFunc
}.

Definition NotFoundHandler : HandlerFunc := mret (Some ErrNotFound).
Definition MethodNotAllowedHandler : HandlerFunc := mret (Some ErrMethodNotAllowed).

(** ** Accessors of [Context] used by the sources *)

(** [c.Request()] and [c.Response()] followed by a method call: a nil handle
    panics. *)
Definition Request_ : Go engine.Request :=
  c ← get_ctx;
  match request c with
  | Some r => mret r
  | None => panic "nil pointer dereference"
  end.

Definition Response_ : Go engine.Response :=
  c ← get_ctx;
  match response c with
  | Some r => mret r
  | None => panic "nil pointer dereference"
  end.

Definition set_request (r : engine.Request) : Go unit :=
  c ← get_ctx;
  put_ctx (mkCtxState (Some r) (response c) (pvalues c) (data c) (lang c)).

Definition set_response (r : engine.Response) : Go unit :=
  c ← get_ctx;
  put_ctx (mkCtxState (request c) (Some r) (pvalues c) (data c) (lang c)).

(** Modelled from the spec: [Context.NoContent] writes the status and no
    body; [context.go] is not among the sources. *)
Definition NoContent (code : Z) : Go unit :=
  r ← Response_;
  set_response (engine.WriteHeader code r).

(** Modelled from the spec: [Context.String] writes the status, then the
    text as the body. *)
Definition String_ (code : Z) (s : string) : Go unit :=
  r ← Response_;
  set_response (engine.Write s (engine.WriteHeader code r)).

(** ** Chaining middleware *)

(** The loop [for i := len(ms) - 1; i >= 0; i-- { h = ms[i](h) }]; the
    argument [k] is [i + 1]. *)
Fixpoint chain_from (ms : list MiddlewareFunc) (k : nat) (h : HandlerFunc)
  : Go HandlerFunc :=
  match k with
  | O => mret h
  | S i =>
      match ms !! i with
      | Some m => h' ← m h; chain_from ms i h'
      | None => panic "index out of range"
      end
  end.

Definition chain (ms : list MiddlewareFunc) (h : HandlerFunc) : Go HandlerFunc :=
  chain_from ms (length ms) h.

Definition WrapMiddleware (h : HandlerFunc) : MiddlewareFunc :=
  fun next => mret (
    err ← h;
    match err with
    | Some e => mret (Some e)
    | None => next
    end).

(** ** Routes and handler identity *)

Record Route : Type := mkRoute {
  Method : string;
  Path : string;
  Handler : string
}.

(** A Go function value together with the name that
    [runtime.FuncForPC(reflect.ValueOf(h).Pointer()).Name()] reports for it.
    A [HandlerFunc] always has kind [reflect.Func], so [handlerName] takes
    that branch. *)
Record NamedHandler : Type := mkNamedHandler {
  func_name : string;
  func : HandlerFunc
}.

Definition handlerName (h : NamedHandler) : string := func_name h.

(** ** The default result handlers *)

Definition get_debug : Go bool := fun w => (Returned (leego_debug w), w).

Definition DefaultHTTPErrorHandler : HTTPErrorHandler := fun err =>
  let code := http.StatusInternalServerError in
  let msg := http.StatusText code in
  let '(code, msg) :=
    match asHTTPError err with
    | Some he => (Code he, Message he)
    | None => (code, msg)
    end in
  debug ← get_debug;
  let msg := if debug : bool then Error err else msg in
  res ← Response_;
  if negb (engine.Committed res) then
    req ← Request_;
    if String.eqb (engine.Method req) HEAD
    then NoContent code
    else String_ code msg
  else mret tt.

Definition DefaultHTTPSuccessHandler : HTTPSuccessHandler := mret tt.

(** The status and the text that [DefaultHTTPErrorHandler] settles on
    before it writes, and the heap with the response replaced. *)
Definition error_status (err : LeegoError) : Z :=
  match asHTTPError err with
  | Some he => Code he
  | None => http.StatusInternalServerError
  end.

Definition error_text (debug : bool) (err : LeegoError) : string :=
  if debug then Error err
  else match asHTTPError err with
       | Some he => Message he
       | None => http.StatusText http.StatusInternalServerError
       end.

Definition with_response (w : World) (r : engine.Response) : World :=
  mkWorld (mkCtxState (request (ctx w)) (Some r) (pvalues (ctx w))
                      (data (ctx w)) (lang (ctx w)))
          (leego_debug w) (journal w).

(** ** Pooled contexts *)

(** [make([]string, n)] *)
Definition make_strings (n : nat) : list string := replicate n EmptyString.

(** Modelled from the spec: [Reset] clears the per-request state (handler
    back to the not-found handler, parameter slice truncated to length zero,
    data bag cleared); [context.go] is not among the sources. *)
Definition Reset (req : engine.Request) (res : engine.Response)
    (c : echoContext) : echoContext :=
  mkEchoContext (mkCtxState (Some req) (Some res) [] ∅ EmptyString)
                NotFoundHandler.

(** Modelled from the spec: [SetLang] caches the language tag of the
    request. *)
Definition SetLang (l : string) (c : echoContext) : echoContext :=
  mkEchoContext
    (mkCtxState (request (state c)) (response (state c)) (pvalues (state c))
                (data (state c)) l)
    (handler c).

(** ** The framework instance *)

Section WithRouter.

(** [router.go] is not among the sources: the per-method path trees are a
    parameter, with the two operations [leego.go] calls on them.
    [Router_Add] receives the instance to raise [*e.maxParam], which is
    passed and returned here beside the trees; [Router_Find] writes the
    handler and the parameter values into the context. *)
Variable Tree : Type.
Variable Router_Add :
  string -> string -> HandlerFunc -> Tree * nat -> Tree * nat.
Variable Router_Find :
  Tree -> string -> string -> echoContext -> echoContext.

Record Router : Type := mkRouter {
  tree : Tree;
  routes : gmap string Route
}.

(** The fields of [Leego] that [leego.go] reads; [pool] is the content of
    the [sync.Pool], most recently put first. *)
Record Leego : Type := mkLeego {
  premiddleware : list MiddlewareFunc;
  middleware : list MiddlewareFunc;
  maxParam : nat;
  httpErrorHandler : HTTPErrorHandler;
  httpSuccessHandler : HTTPSuccessHandler;
  pool : list echoContext;
  debug : bool;
  router : Router
}.

Definition NewContext (e : Leego) (req : option engine.Request)
    (res : option engine.Response) : echoContext :=
  mkEchoContext
    (mkCtxState req res (make_strings (maxParam e)) ∅ EmptyString)
    NotFoundHandler.

Definition ResponseHandler (e : Leego) (err : option LeegoError) : Go unit :=
  match err with
  | Some err => httpErrorHandler e err
  | None => httpSuccessHandler e
  end.

Definition Pre (ms : list MiddlewareFunc) (e : Leego) : Leego :=
  mkLeego (premiddleware e ++ ms) (middleware e) (maxParam e)
          (httpErrorHandler e) (httpSuccessHandler e) (pool e) (debug e)
          (router e).

Definition Use (ms : list MiddlewareFunc) (e : Leego) : Leego :=
  mkLeego (premiddleware e) (middleware e ++ ms) (maxParam e)
          (httpErrorHandler e) (httpSuccessHandler e) (pool e) (debug e)
          (router e).

(** The closure that [add] hands to the router. *)
Definition routeHandler (handler : HandlerFunc)
    (ms : list MiddlewareFunc) : HandlerFunc :=
  h ← chain ms handler;
  h.

Definition add (method path : string) (handler : NamedHandler)
    (ms : list MiddlewareFunc) (e : Leego) : Leego :=
  let name := handlerName handler in
  let '(t, mp) :=
    Router_Add method path (routeHandler (func handler) ms)
               (tree (router e), maxParam e) in
  let r := mkRoute method path name in
  mkLeego (premiddleware e) (middleware e) mp
          (httpErrorHandler e) (httpSuccessHandler e) (pool e) (debug e)
          (mkRouter t (<[method +:+ path := r]> (routes (router e)))).

(** [e.pool.Get()]: a pooled context, or a fresh one from [pool.New]. *)
Definition pool_Get (e : Leego) : echoContext * list echoContext :=
  match pool e with
  | c :: rest => (c, rest)
  | [] => (NewContext e None None, [])
  end.

Definition with_pool (p : list echoContext) (e : Leego) : Leego :=
  mkLeego (premiddleware e) (middleware e) (maxParam e)
          (httpErrorHandler e) (httpSuccessHandler e) p (debug e)
          (router e).

(** The closure [h] of [ServeHTTP]: it ignores its argument and works on
    the context [c] of the request; [req] is the object behind
    [c.Request()]. *)
Definition routerHandler (e : Leego) (c : echoContext) : HandlerFunc :=
  req ← Request_;
  let method := engine.Method req in
  let path := engine.Path (engine.url req) in
  st ← get_ctx;
  let c' := Router_Find (tree (router e)) method path
                        (mkEchoContext st (handler c)) in
  _ ← put_ctx (state c');
  let h := handler c' in
  h ← chain (middleware e) h;
  h.

(** What [ServeHTTP] runs between [pool.Get] and [pool.Put]. *)
Definition serve (e : Leego) (c : echoContext) : Go unit :=
  let h := routerHandler e c in
  h ← chain (premiddleware e) h;
  err ← h;
  ResponseHandler e err.

(** [ServeHTTP], from the journal of user code before the request to the
    instance and the journal after it.  A panic unwinds past [pool.Put].
    The context put back carries the state the request left; its
    [handler] field, which [Reset] overwrites before it is read again, is
    not followed through the dispatch. *)
Definition ServeHTTP (req : engine.Request) (res : engine.Response)
    (e : Leego) (j : list string) : Outcome unit * (Leego * list string) :=
  let '(c, rest) := pool_Get e in
  let c := Reset req res c in
  let c := SetLang (engine.HeaderGet "Accept-Language" req) c in
  match serve e c (mkWorld (state c) (debug e) j) with
  | (Returned _, w) =>
      (Returned tt,
       (with_pool (mkEchoContext (ctx w) (handler c) :: rest) e, journal w))
  | (Panicked r, w) =>
      (Panicked r, (with_pool rest e, journal w))
  end.

End WithRouter.

Arguments mkRouter {Tree} _ _.
Arguments tree {Tree} _.
Arguments routes {Tree} _.
Arguments mkLeego {Tree}.
Arguments premiddleware {Tree} _.
Arguments middleware {Tree} _.
Arguments maxParam {Tree} _.
Arguments httpErrorHandler {Tree} _.
Arguments httpSuccessHandler {Tree} _.
Arguments pool {Tree} _.
Arguments debug {Tree} _.
Arguments router {Tree} _.
Arguments NewContext {Tree} e req res.
Arguments ResponseHandler {Tree} e err.
Arguments Pre {Tree} ms e.
Arguments Use {Tree} ms e.
Arguments add {Tree} Router_Add method path handler ms e.
Arguments pool_Get {Tree} e.
Arguments with_pool {Tree} p e.
Arguments routerHandler {Tree} Router_Find e c.
Arguments serve {Tree} Router_Find e c.
Arguments ServeHTTP {Tree} Router_Find req res e j.

(** ** Reverse URI generation *)

Definition bytes (s : string) : list ascii := String.list_ascii_of_string s.

(** The inner loop [for ; i < l && r.Path[i] != '/'; i++ {}]: the index at
    which it stops. *)
Fixpoint skip_name (path : list ascii) (l : nat) (fuel : nat) (i : nat) : nat :=
  match fuel with
  | O => i
  | S fuel' =>
      match path !! i with
      | Some b =>
          if (i <? l)%nat && negb (Ascii.eqb b "/"%char)
          then skip_name path l fuel' (S i)
          else i
      | None => i
      end
  end.

(** The loop over the bytes of one route path, with the buffer [uri] and the
    count [n] of values used.  Every index is guarded by [i < l] and
    [params[n]] by [n < ln], so no access is out of range. *)
Fixpoint uri_loop (path : list ascii) (params : list any) (l : nat)
    (fuel : nat) (i n : nat) (uri : list ascii) : list ascii :=
  match fuel with
  | O => uri
  | S fuel' =>
      if (i <? l)%nat then
        let '(i, n, uri) :=
          match path !! i, params !! n with
          | Some b, Some v =>
              if Ascii.eqb b ":"%char && (n <? length params)%nat then
                (skip_name path l (l - i) i, S n, uri ++ bytes (Sprintf_v v))
              else (i, n, uri)
          | _, _ => (i, n, uri)
          end in
        let uri :=
          match path !! i with
          | Some b => if (i <? l)%nat then uri ++ [b] else uri
          | None => uri
          end in
        uri_loop path params l fuel' (S i) n uri
      else uri
  end.

Definition uri_of_path (path : string) (params : list any) : string :=
  let l := String.length path in
  String.string_of_list_ascii (uri_loop (bytes path) params l l 0 0 []).

(** The loop over the routes, in the order [rs] in which [range] visits the
    map, up to the [break] at the first route of that name. *)
Fixpoint URI_range (rs : list Route) (name : string) (params : list any)
  : string :=
  match rs with
  | [] => EmptyString
  | r :: rs' =>
      if String.eqb (Handler r) name
      then uri_of_path (Path r) params
      else URI_range rs' name params
  end.

(** Go leaves the iteration order of a map unspecified: [range] may visit
    the routes in any order. *)
Definition range_order (m : gmap string Route) (rs : list Route) : Prop :=
  rs ≡ₚ (map_to_list m).*2.

Definition URI (rs : list Route) (handler : NamedHandler) (params : list any)
  : string :=
  URI_range rs (handlerName handler) params.

(** ** Package [middleware]: trailing slashes *)

(** [s[i]] on a string: a byte, or the run-time panic of an index out of
    range. *)
Definition index_byte (s : string) (i : Z) : Go ascii :=
  if (i <? 0) || (Z.of_nat (String.length s) <=? i) then
    panic "index out of range"
  else
    match bytes s !! Z.to_nat i with
    | Some b => mret b
    | None => panic "index out of range"
    end.

(** [s[:l]] for [0 <= l <= len(s)]. *)
Definition slice_to (s : string) (l : Z) : string :=
  String.string_of_list_ascii (take (Z.to_nat l) (bytes s)).

Definition ends_with_slash (s : string) : bool :=
  match last (bytes s) with
  | Some b => Ascii.eqb b "/"%char
  | None => false
  end.

Definition with_request (w : World) (r : engine.Request) : World :=
  mkWorld (mkCtxState (Some r) (response (ctx w)) (pvalues (ctx w))
                      (data (ctx w)) (lang (ctx w)))
          (leego_debug w) (journal w).

Module middleware.
Section TrailingSlash.

(** [Skipper], [defaultSkipper] and [Context.Redirect] are declared in
    files that are not among the sources. *)
Definition Skipper : Type := Go bool.
Variable defaultSkipper : Skipper.
Variable Redirect : Z -> string -> HandlerFunc.

Record TrailingSlashConfig : Type := mkTrailingSlashConfig {
  Skipper_ : option Skipper;
  RedirectCode : Z
}.

Definition DefaultTrailingSlashConfig : TrailingSlashConfig :=
  mkTrailingSlashConfig (Some defaultSkipper) 0.

(** The defaults block: a nil [Skipper] is replaced by the default one. *)
Definition with_defaults (config : TrailingSlashConfig) : TrailingSlashConfig :=
  match Skipper_ config with
  | None =>
      mkTrailingSlashConfig (Skipper_ DefaultTrailingSlashConfig)
                            (RedirectCode config)
  | Some _ => config
  end.

Definition call_Skipper (config : TrailingSlashConfig) : Go bool :=
  match Skipper_ config with
  | Some s => s
  | None => panic "nil pointer dereference"
  end.

(** The handler returned by the middleware of [AddTrailingSlashWithConfig]. *)
Definition addTrailingSlash (config : TrailingSlashConfig)
    (next : HandlerFunc) : HandlerFunc :=
  skip ← call_Skipper config;
  if skip : bool then next
  else
    req ← Request_;
    let url := engine.url req in
    let path := engine.Path url in
    let qs := engine.QueryString url in
    cond ← (if negb (String.eqb path "/") then
              b ← index_byte path (Z.of_nat (String.length path) - 1);
              mret (negb (Ascii.eqb b "/"%char))
            else mret false);
    if cond : bool then
      let path := path +:+ "/" in
      let uri := path in
      let uri := if negb (String.eqb qs "") then uri +:+ "?" +:+ qs else uri in
      if negb (RedirectCode config =? 0) then
        Redirect (RedirectCode config) uri
      else
        _ ← set_request (engine.SetPath path (engine.SetURI uri req));
        next
    else next.

Definition AddTrailingSlashWithConfig (config : TrailingSlashConfig)
  : MiddlewareFunc :=
  let config := with_defaults config in
  fun next => mret (addTrailingSlash config next).

Definition AddTrailingSlash : MiddlewareFunc :=
  AddTrailingSlashWithConfig (mkTrailingSlashConfig None 0).

(** The handler returned by the middleware of
    [RemoveTrailingSlashWithConfig]. *)
Definition removeTrailingSlash (config : TrailingSlashConfig)
    (next : HandlerFunc) : HandlerFunc :=
  skip ← call_Skipper config;
  if skip : bool then next
  else
    req ← Request_;
    let url := engine.url req in
    let path := engine.Path url in
    let qs := engine.QueryString url in
    let l := Z.of_nat (String.length path) - 1 in
    cond ← (if (0 <=? l) && negb (String.eqb path "/") then
              b ← index_byte path l;
              mret (Ascii.eqb b "/"%char)
            else mret false);
    if cond : bool then
      let path := slice_to path l in
      let uri := path in
      let uri := if negb (String.eqb qs "") then uri +:+ "?" +:+ qs else uri in
      if negb (RedirectCode config =? 0) then
        Redirect (RedirectCode config) uri
      else
        _ ← set_request (engine.SetPath path (engine.SetURI uri req));
        next
    else next.

Definition RemoveTrailingSlashWithConfig (config : TrailingSlashConfig)
  : MiddlewareFunc :=
  let config := with_defaults config in
  fun next => mret (removeTrailingSlash config next).

Definition RemoveTrailingSlash : MiddlewareFunc :=
  RemoveTrailingSlashWithConfig (mkTrailingSlashConfig None 0).

End TrailingSlash.

End middleware.

(** ** Test doubles *)

(** A middleware that records its entry, calls [next], and records its
    exit. *)
Definition tracer (name : string) : MiddlewareFunc :=
  fun next => mret (
    _ ← record (name +:+ "-enter");
    r ← next;
    _ ← record (name +:+ "-exit");
    mret r).

(** A terminal handler that records its name and returns nil. *)
Definition probe (name : string) : HandlerFunc :=
  _ ← record name;
  mret None.

(** A middleware whose wrapping step itself has an effect: each time a chain
    is folded through it, it records a line, and it hands [next] back. *)
Definition wrap_counter (line : string) : MiddlewareFunc :=
  fun next => _ ← record line; mret next.

(** What a chain of [tracer]s amounts to, and the lines it leaves in the
    journal. *)
Definition journal_add (w : World) (ls : list string) : World :=
  mkWorld (ctx w) (leego_debug w) (journal w ++ ls).

Definition enter (names : list string) : list string :=
  (fun n => n +:+ "-enter") <$> names.

Definition exit (names : list string) : list string :=
  (fun n => n +:+ "-exit") <$> names.

Definition traced (names : list string) (h : HandlerFunc) : HandlerFunc :=
  foldr (fun n k => _ ← record (n +:+ "-enter");
                    r ← k;
                    _ ← record (n +:+ "-exit");
                    mret r) h names.

(** ** Sample data *)

Definition sample_request : engine.Request :=
  engine.mkRequest "GET" (engine.mkURL "/a" "x=1") "/a?x=1" ∅.

Definition sample_response : engine.Response :=
  engine.mkResponse false 0 "".

Definition sample_world : World :=
  mkWorld (mkCtxState (Some sample_request) (Some sample_response) [] ∅ "")
          false [].

(** The route of a registry with one route. *)
Definition comments_route : Route :=
  mkRoute "GET" "/posts/:id/comments/:cid" "main.comments".

(** A router that only keeps what [add] hands it, most recent first. *)
Definition recording_Add (method path : string) (h : HandlerFunc)
    (tm : list (string * string * HandlerFunc) * nat)
  : list (string * string * HandlerFunc) * nat :=
  ((method, path, h) :: fst tm, snd tm).

Definition recording_leego : Leego (list (string * string * HandlerFunc)) :=
  mkLeego [] [] 0%nat DefaultHTTPErrorHandler DefaultHTTPSuccessHandler
          [] false (mkRouter [] ∅).

(** One handler registered at [/a] first and at [/b] next. *)
Definition main_h : NamedHandler := mkNamedHandler "main.h" (probe "H").

Definition twice_registered : Leego (list (string * string * HandlerFunc)) :=
  add recording_Add "GET" "/b" main_h []
      (add recording_Add "GET" "/a" main_h [] recording_leego).

(** A heap whose response is already committed, one with a HEAD request,
    and the latter with the debug flag on. *)
Definition committed_world : World :=
  mkWorld (mkCtxState (Some sample_request)
                      (Some (engine.mkResponse true 200 "ok")) [] ∅ "")
          false [].

Definition head_world : World :=
  mkWorld (mkCtxState
             (Some (engine.mkRequest "HEAD" (engine.mkURL "/a" "") "/a" ∅))
             (Some sample_response) [] ∅ "")
          false [].

Definition head_debug_world : World :=
  mkWorld (ctx head_world) true [].

(** A request with the empty path, a [Redirect] that writes nothing, and a
    configuration whose skipper answers false. *)
Definition empty_path_world : World :=
  mkWorld (mkCtxState
             (Some (engine.mkRequest "GET" (engine.mkURL "" "") "" ∅))
             (Some sample_response) [] ∅ "")
          false [].

Definition sample_Redirect (code : Z) (uri : string) : HandlerFunc :=
  mret None.

Definition sample_config : middleware.TrailingSlashConfig :=
  middleware.mkTrailingSlashConfig (Some (mret false)) 0.

(** A request with the empty path, as a CONNECT request has. *)
Definition empty_path_request : engine.Request :=
  engine.mkRequest "CONNECT" (engine.mkURL "" "") "" ∅.

(** A router that resolves every request to [probe "H"], and an instance
    with premiddleware [pre] and global middleware [glob] around it. *)
Definition sample_Find (t : unit) (method path : string) (c : echoContext)
  : echoContext :=
  mkEchoContext (state c) (probe "H").

Definition sample_leego (pre glob : list MiddlewareFunc) : Leego unit :=
  mkLeego pre glob 0%nat DefaultHTTPErrorHandler DefaultHTTPSuccessHandler
          [] false (mkRouter tt ∅).

(** An instance with [AddTrailingSlash] as its premiddleware and one
    context in its pool. *)
Definition slash_leego : Leego unit :=
  mkLeego [middleware.AddTrailingSlash (mret false) sample_Redirect] []
          0%nat DefaultHTTPErrorHandler DefaultHTTPSuccessHandler
          [mkEchoContext (mkCtxState None None [] ∅ "") NotFoundHandler]
          false (mkRouter tt ∅).

(** ** The loops of [URI] as recursion on the rest of the path *)

(** The number of bytes before the next ['/']. *)
Fixpoint name_len (p : list ascii) : nat :=
  match p with
  | [] => O
  | b :: p' => if Ascii.eqb b "/"%char then O else S (name_len p')
  end.

(** What the loop appends for the rest [p] of the path and the values not
    yet used; [skipping] is set inside a name that a value has replaced. *)
Fixpoint walk (skipping : bool) (p : list ascii) (vals : list any)
  : list ascii :=
  match p with
  | [] => []
  | b :: p' =>
      if skipping then
        if Ascii.eqb b "/"%char then b :: walk false p' vals
        else walk true p' vals
      else if Ascii.eqb b ":"%char then
        match vals with
        | v :: vs => bytes (Sprintf_v v) ++ walk true p' vs
        | [] => b :: walk false p' []
        end
      else b :: walk false p' vals
  end.

(** ** The substitution of [URI] read off the spec *)

(** A path as its ['/']-delimited segments, and back. *)
Fixpoint segments_of (p : list ascii) : list (list ascii) :=
  match p with
  | [] => [[]]
  | b :: p' =>
      if Ascii.eqb b "/"%char then [] :: segments_of p'
      else match segments_of p' with
           | s :: ss => (b :: s) :: ss
           | [] => [[b]]
           end
  end.

Definition segments (path : string) : list string :=
  String.string_of_list_ascii <$> segments_of (bytes path).

Fixpoint join_slash (segs : list string) : string :=
  match segs with
  | [] => EmptyString
  | s :: rest =>
      match rest with
      | [] => s
      | _ :: _ => s +:+ "/" +:+ join_slash rest
      end
  end.

(** A segment of the form [:name]. *)
Definition is_param (seg : string) : bool :=
  match seg with
  | String b _ => Ascii.eqb b ":"%char
  | EmptyString => false
  end.

(** Each [:name] segment, in pattern order, takes the next supplied value;
    segments beyond the supplied values stay as they are. *)
Fixpoint substitute (segs : list string) (vals : list any) : list string :=
  match segs with
  | [] => []
  | seg :: rest =>
      if is_param seg then
        match vals with
        | v :: vs => Sprintf_v v :: substitute rest vs
        | [] => seg :: substitute rest []
        end
      else seg :: substitute rest vals
  end.

Definition URI_spec (path : string) (vals : list any) : string :=
  join_slash (substitute (segments path) vals).

(** A segment holds no ['/'], and a [':'] only as the first byte of a
    [:name] segment. *)
Definition segment_ok (seg : string) : Prop :=
  ("/"%char ∉ bytes seg) /\ (is_param seg = false -> ":"%char ∉ bytes seg).

(** No segment other than a [:name] segment holds a [':']. *)
Definition no_colon (seg : string) : bool :=
  forallb (fun b => negb (Ascii.eqb b ":"%char)) (bytes seg).

Definition static_segments_clean (path : string) : bool :=
  forallb (fun seg => is_param seg || no_colon seg) (segments path).

(** ** Further definitions: method names, [Match] and [Any] *)

Definition CONNECT : string := "CONNECT".
Definition DELETE : string := "DELETE".
Definition GET : string := "GET".
Definition OPTIONS : string := "OPTIONS".
Definition PATCH : string := "PATCH".
Definition POST : string := "POST".
Definition PUT : string := "PUT".
Definition TRACE : string := "TRACE".

Definition methods : list string :=
  [CONNECT; DELETE; GET; HEAD; OPTIONS; PATCH; POST; PUT; TRACE].

(** [for _, m := range methods { e.add(m, path, handler, middleware...) }] *)
Definition Match {Tree : Type}
    (Router_Add : string -> string -> HandlerFunc -> Tree * nat -> Tree * nat)
    (methods : list string) (path : string) (handler : NamedHandler)
    (ms : list MiddlewareFunc) (e : Leego Tree) : Leego Tree :=
  foldl (fun e m => add Router_Add m path handler ms e) e methods.

Definition Any {Tree : Type}
    (Router_Add : string -> string -> HandlerFunc -> Tree * nat -> Tree * nat)
    (path : string) (handler : NamedHandler)
    (ms : list MiddlewareFunc) (e : Leego Tree) : Leego Tree :=
  Match Router_Add methods path handler ms e.

(** [URL] is an alias of [URI]. *)
Definition URL (rs : list Route) (h : NamedHandler) (params : list any)
  : string :=
  URI rs h params.

(** Handlers run one after the other up to the first that returns an
    error, then [h] if none did. *)
Definition first_error (hs : list HandlerFunc) (h : HandlerFunc) : HandlerFunc :=
  foldr (fun hi k => err ← hi;
                     match err with
                     | Some e => mret (Some e)
                     | None => k
                     end) h hs.

(** The number of [':'] bytes of a pattern. *)
Definition count_colons (p : list ascii) : nat :=
  length (filter (fun b => b = ":"%char) p).

Definition with_debug (d : bool) (w : World) : World :=
  mkWorld (ctx w) d (journal w).

(** * Properties *)

(** ** The [Go] monad *)

Lemma bind_returned {A B : Type} (m : Go A) (k : A -> Go B) (w w' : World) (a : A) :
  m w = (Returned a, w') -> (x ← m; k x) w = k a w'.
Proof. intros Hm. unfold mbind, Go_bind. rewrite Hm. reflexivity. Qed.

Lemma bind_panicked {A B : Type} (m : Go A) (k : A -> Go B) (w w' : World) r :
  m w = (Panicked r, w') -> (x ← m; k x) w = (Panicked r, w').
Proof. intros Hm. unfold mbind, Go_bind. rewrite Hm. reflexivity. Qed.

Lemma bind_ret_r {A : Type} (m : Go A) (w : World) :
  (x ← m; mret x) w = m w.
Proof.
  unfold mbind, Go_bind, mret, Go_ret.
  destruct (m w) as [[a | r] w']; reflexivity.
Qed.

Lemma bind_ext {A B : Type} (m : Go A) (k1 k2 : A -> Go B) (w : World) :
  (forall a w', k1 a w' = k2 a w') -> (x ← m; k1 x) w = (x ← m; k2 x) w.
Proof.
  intros Hk. unfold mbind, Go_bind.
  destruct (m w) as [[a | r] w']; [apply Hk | reflexivity].
Qed.

Lemma bind_assoc {A B C : Type} (m : Go A) (k : A -> Go B) (k' : B -> Go C) w :
  (y ← (x ← m; k x); k' y) w = (x ← m; y ← k x; k' y) w.
Proof.
  unfold mbind, Go_bind.
  destruct (m w) as [[a | r] w']; reflexivity.
Qed.

(** ** WrapMiddleware *)

(** C10.  [WrapMiddleware h] applied to [next] returns, without touching the
    heap, a handler that first runs [h]: if [h] returns an error, the
    handler returns that error from the heap [h] left, whatever [next] is
    (so [next] has not run); if [h] returns nil, the handler is [next] run
    on the heap [h] left. *)
Theorem WrapMiddleware_runs_h_then_next (h next : HandlerFunc) (w : World) :
  exists wrapped : HandlerFunc,
    WrapMiddleware h next w = (Returned wrapped, w) /\
    (forall w0 w1 err,
        h w0 = (Returned (Some err), w1) ->
        wrapped w0 = (Returned (Some err), w1) /\
        forall next' wrapped',
          WrapMiddleware h next' w = (Returned wrapped', w) ->
          wrapped' w0 = wrapped w0) /\
    (forall w0 w1,
        h w0 = (Returned None, w1) -> wrapped w0 = next w1).
Proof.
  eexists. split; [reflexivity |]. split.
  - intros w0 w1 err Hh. split.
    + erewrite bind_returned by exact Hh. reflexivity.
    + intros next' wrapped' Hw. inversion Hw; subst wrapped'.
      erewrite !bind_returned by exact Hh. reflexivity.
  - intros w0 w1 Hh. erewrite bind_returned by exact Hh. reflexivity.
Qed.

(** ** Chains *)

Lemma chain_nil (h : HandlerFunc) (w : World) : chain [] h w = (Returned h, w).
Proof. reflexivity. Qed.

Lemma chain_from_cons (m : MiddlewareFunc) (ms : list MiddlewareFunc) (k : nat) :
  forall (h : HandlerFunc) (w : World),
    chain_from (m :: ms) (S k) h w = (h' ← chain_from ms k h; m h') w.
Proof.
  induction k as [| k IH]; intros h w.
  - cbn [chain_from lookup list_lookup]. apply bind_ret_r.
  - change (chain_from (m :: ms) (S (S k)) h w)
      with (match ms !! k with
            | Some m' => h' ← m' h; chain_from (m :: ms) (S k) h'
            | None => panic "index out of range"
            end w).
    cbn [chain_from]. destruct (ms !! k) as [m' |].
    + rewrite bind_assoc. apply bind_ext. intros h' w'. apply IH.
    + reflexivity.
Qed.

Lemma chain_cons (m : MiddlewareFunc) (ms : list MiddlewareFunc)
    (h : HandlerFunc) (w : World) :
  chain (m :: ms) h w = (h' ← chain ms h; m h') w.
Proof. unfold chain. cbn [length]. apply chain_from_cons. Qed.

(** For middleware whose wrapping step has no effect of its own, the chain
    is the right fold of the wrappers. *)
Lemma chain_pure (fs : list (HandlerFunc -> HandlerFunc)) (h : HandlerFunc)
    (w : World) :
  chain ((fun f next => mret (f next)) <$> fs) h w
  = (Returned (foldr (fun f k => f k) h fs), w).
Proof.
  revert w. induction fs as [| f fs IH]; intros w; [reflexivity |].
  rewrite fmap_cons, chain_cons.
  erewrite bind_returned by apply IH. reflexivity.
Qed.

Lemma journal_add_nil (w : World) : journal_add w [] = w.
Proof. destruct w. unfold journal_add. cbn. by rewrite app_nil_r. Qed.

Lemma journal_add_add (w : World) (l1 l2 : list string) :
  journal_add (journal_add w l1) l2 = journal_add w (l1 ++ l2).
Proof. unfold journal_add. cbn. by rewrite app_assoc. Qed.

Lemma chain_tracers (names : list string) (h : HandlerFunc) (w : World) :
  chain (tracer <$> names) h w = (Returned (traced names h), w).
Proof.
  revert w. induction names as [| n names IH]; intros w; [reflexivity |].
  rewrite fmap_cons, chain_cons.
  erewrite bind_returned by apply IH. reflexivity.
Qed.

Lemma traced_run (names : list string) (h : HandlerFunc) :
  forall w : World,
    traced names h w =
    match h (journal_add w (enter names)) with
    | (Returned r, w') => (Returned r, journal_add w' (exit (rev names)))
    | (Panicked r, w') => (Panicked r, w')
    end.
Proof.
  induction names as [| n names IH]; intros w.
  - cbn. rewrite journal_add_nil.
    destruct (h w) as [[r | r] w']; [by rewrite journal_add_nil | done].
  - cbn [traced foldr]. fold (traced names h).
    unfold mbind at 1, Go_bind at 1. cbn [record].
    fold (journal_add w [n +:+ "-enter"]).
    unfold mbind at 1, Go_bind at 1. rewrite IH, journal_add_add.
    change ([n +:+ "-enter"] ++ enter names) with (enter (n :: names)).
    destruct (h (journal_add w (enter (n :: names)))) as [[r | r] w']; [| done].
    unfold journal_add, exit. cbn [rev]. rewrite fmap_app, app_assoc.
    reflexivity.
Qed.

Lemma routerHandler_run {Tree : Type}
    (Router_Find : Tree -> string -> string -> echoContext -> echoContext)
    (e : Leego Tree) (c : echoContext) (w : World) (req : engine.Request) :
  request (ctx w) = Some req ->
  routerHandler Router_Find e c w =
  let c' := Router_Find (tree (router e)) (engine.Method req)
                        (engine.Path (engine.url req))
                        (mkEchoContext (ctx w) (handler c)) in
  (h ← chain (middleware e) (handler c'); h)
    (mkWorld (state c') (leego_debug w) (journal w)).
Proof.
  intros Hreq. unfold routerHandler, Request_.
  unfold mbind at 1, Go_bind at 1. unfold mbind at 1, Go_bind at 1.
  cbn [get_ctx]. rewrite Hreq. reflexivity.
Qed.

Lemma ServeHTTP_tracers_journal {Tree : Type}
    (Router_Find : Tree -> string -> string -> echoContext -> echoContext)
    (e : Leego Tree) (req : engine.Request) (res : engine.Response)
    (j : list string) (pre glob : list string) (H : string) :
  premiddleware e = tracer <$> pre ->
  middleware e = tracer <$> glob ->
  (forall t m p c, handler (Router_Find t m p c) = probe H) ->
  httpSuccessHandler e = DefaultHTTPSuccessHandler ->
  snd (snd (ServeHTTP Router_Find req res e j))
  = j ++ enter pre ++ enter glob ++ [H] ++ exit (rev glob) ++ exit (rev pre).
Proof.
  intros Hpre Hglob Hfind Hok.
  unfold ServeHTTP. destruct (pool_Get e) as [c rest].
  unfold serve. rewrite Hpre.
  erewrite bind_returned by apply chain_tracers.
  unfold mbind at 1, Go_bind at 1. rewrite traced_run.
  erewrite routerHandler_run by reflexivity.
  cbv zeta. rewrite Hfind, Hglob.
  erewrite bind_returned by apply chain_tracers.
  rewrite traced_run.
  unfold ResponseHandler. rewrite Hok.
  unfold probe, record, DefaultHTTPSuccessHandler, mbind, Go_bind, mret,
    Go_ret, journal_add.
  cbn. rewrite <- !app_assoc. reflexivity.
Qed.

(** C1.  The chain is folded from the last middleware to the first, so the
    first-declared one is outermost: an empty list leaves the handler, and
    [m :: ms] wraps with [m] what [ms] made of the handler.  [ServeHTTP]
    folds the premiddleware in this way around its routing closure, and the
    closure folds the global middleware around the handler the router found.
    Tracing middleware around any terminal handler record their entries in
    declaration order, run the handler, and record their exits in reverse
    order.  With tracing middleware named [pre] and [glob] and a terminal
    handler recording [H], a request leaves in the journal the entries of
    [pre], then of [glob], in declaration order, then [H], then the exits
    in reverse order; for the list [A, B], that is A-enter, B-enter, H,
    B-exit, A-exit. *)
Theorem ServeHTTP_first_declared_outermost {Tree : Type}
    (Router_Find : Tree -> string -> string -> echoContext -> echoContext)
    (e : Leego Tree) :
  (forall h w, chain [] h w = (Returned h, w)) /\
  (forall m ms h w, chain (m :: ms) h w = (h' ← chain ms h; m h') w) /\
  (forall c w,
      serve Router_Find e c w =
      (h ← chain (premiddleware e) (routerHandler Router_Find e c);
       err ← h;
       ResponseHandler e err) w) /\
  (forall c w req,
      request (ctx w) = Some req ->
      routerHandler Router_Find e c w =
      let c' := Router_Find (tree (router e)) (engine.Method req)
                            (engine.Path (engine.url req))
                            (mkEchoContext (ctx w) (handler c)) in
      (h ← chain (middleware e) (handler c'); h)
        (mkWorld (state c') (leego_debug w) (journal w))) /\
  (forall names h w,
      (k ← chain (tracer <$> names) h; k) w =
      match h (journal_add w (enter names)) with
      | (Returned r, w') => (Returned r, journal_add w' (exit (rev names)))
      | (Panicked r, w') => (Panicked r, w')
      end) /\
  (forall req res j pre glob H,
      premiddleware e = tracer <$> pre ->
      middleware e = tracer <$> glob ->
      (forall t m p c, handler (Router_Find t m p c) = probe H) ->
      httpSuccessHandler e = DefaultHTTPSuccessHandler ->
      snd (snd (ServeHTTP Router_Find req res e j))
      = j ++ enter pre ++ enter glob ++ [H]
          ++ exit (rev glob) ++ exit (rev pre)).
Proof.
  split; [exact chain_nil |].
  split; [exact chain_cons |].
  split; [reflexivity |].
  split; [intros c w req; apply routerHandler_run |].
  split.
  - intros names h w. erewrite bind_returned by apply chain_tracers.
    apply traced_run.
  - intros req res j pre glob H. apply ServeHTTP_tracers_journal.
Qed.

Lemma ServeHTTP_first_declared_outermost_witness :
  snd (snd (ServeHTTP sample_Find sample_request sample_response
                      (sample_leego [tracer "A"; tracer "B"] []) []))
  = ["A-enter"; "B-enter"; "H"; "B-exit"; "A-exit"]%string /\
  snd (snd (ServeHTTP sample_Find sample_request sample_response
                      (sample_leego [] [tracer "A"; tracer "B"]) []))
  = ["A-enter"; "B-enter"; "H"; "B-exit"; "A-exit"]%string.
Proof.
  split.
  - exact (proj2 (proj2 (proj2 (proj2 (proj2
      (ServeHTTP_first_declared_outermost sample_Find
         (sample_leego [tracer "A"; tracer "B"] []))))))
      sample_request sample_response [] ["A"; "B"]%string [] "H"%string
      eq_refl eq_refl (fun _ _ _ _ => eq_refl) eq_refl).
  - exact (proj2 (proj2 (proj2 (proj2 (proj2
      (ServeHTTP_first_declared_outermost sample_Find
         (sample_leego [] [tracer "A"; tracer "B"]))))))
      sample_request sample_response [] [] ["A"; "B"]%string "H"%string
      eq_refl eq_refl (fun _ _ _ _ => eq_refl) eq_refl).
Defined.

Lemma WrapMiddleware_runs_h_then_next_witness :
  exists wrapped : HandlerFunc,
    WrapMiddleware NotFoundHandler (probe "next") sample_world
    = (Returned wrapped, sample_world) /\
    wrapped sample_world = (Returned (Some ErrNotFound), sample_world).
Proof.
  destruct (WrapMiddleware_runs_h_then_next NotFoundHandler (probe "next")
              sample_world) as (wrapped & Hw & Herr & _).
  exists wrapped. split; [exact Hw |].
  exact (proj1 (Herr sample_world sample_world ErrNotFound eq_refl)).
Defined.

(** ** Contexts and the pool *)

(** C8.  A context made by [NewContext] has the not-found handler, an empty
    data bag, and a parameter slice of [maxParam] empty strings. *)
Theorem NewContext_initial_state {Tree : Type} (e : Leego Tree)
    (req : option engine.Request) (res : option engine.Response) :
  handler (NewContext e req res) = NotFoundHandler /\
  data (state (NewContext e req res)) = ∅ /\
  pvalues (state (NewContext e req res)) = replicate (maxParam e) EmptyString /\
  length (pvalues (state (NewContext e req res))) = maxParam e /\
  request (state (NewContext e req res)) = req /\
  response (state (NewContext e req res)) = res.
Proof.
  repeat split. cbn. unfold make_strings. apply length_replicate.
Qed.

(** C7, as stated, fails when the chain does not return: a panic unwinds
    [ServeHTTP] before [pool.Put], which is not deferred.  With
    [AddTrailingSlash] as premiddleware, a request with the empty path makes
    the handler read [path[-1]]; the pool, which held one context, is empty
    afterwards. *)
Lemma ServeHTTP_panic_counterexample :
  pool slash_leego
  = [mkEchoContext (mkCtxState None None [] ∅ "") NotFoundHandler] /\
  fst (ServeHTTP sample_Find empty_path_request sample_response slash_leego [])
  = Panicked "index out of range" /\
  pool (fst (snd (ServeHTTP sample_Find empty_path_request sample_response
                            slash_leego [])))
  = [].
Proof. repeat split. Qed.

(** C7, amended.  Whatever the composed chain returns, nil or an error, once
    the result handler has returned the context taken from the pool is put
    back: the pool is that context, in the state the request left it, before
    what remained in the pool. *)
Theorem ServeHTTP_puts_context_back {Tree : Type}
    (Router_Find : Tree -> string -> string -> echoContext -> echoContext)
    (e : Leego Tree) (req : engine.Request) (res : engine.Response)
    (j : list string) (c : echoContext) (rest : list echoContext)
    (err : option LeegoError) (w1 w2 : World) :
  pool_Get e = (c, rest) ->
  let c1 := SetLang (engine.HeaderGet "Accept-Language" req) (Reset req res c) in
  (h ← chain (premiddleware e) (routerHandler Router_Find e c1); h)
    (mkWorld (state c1) (debug e) j) = (Returned err, w1) ->
  ResponseHandler e err w1 = (Returned tt, w2) ->
  ServeHTTP Router_Find req res e j
  = (Returned tt,
     (with_pool (mkEchoContext (ctx w2) (handler c1) :: rest) e, journal w2)) /\
  pool (fst (snd (ServeHTTP Router_Find req res e j)))
  = mkEchoContext (ctx w2) (handler c1) :: rest.
Proof.
  intros Hget c1 Hchain Hresult.
  assert (Hserve : serve Router_Find e c1 (mkWorld (state c1) (debug e) j)
                   = (Returned tt, w2)).
  { unfold serve. rewrite <- Hresult.
    rewrite <- (bind_returned _ (fun err => ResponseHandler e err) _ _ _ Hchain).
    symmetry. apply bind_assoc. }
  unfold ServeHTTP. rewrite Hget. fold c1. rewrite Hserve.
  split; reflexivity.
Qed.

Lemma ServeHTTP_puts_context_back_witness :
  exists st,
    pool (fst (snd (ServeHTTP (fun (_ : unit) _ _ c => c)
                              sample_request sample_response
                              (sample_leego [] []) [])))
    = [mkEchoContext st NotFoundHandler] /\
    engine.Status <$> response st = Some 404.
Proof.
  eexists. split.
  - refine (proj2 (ServeHTTP_puts_context_back (fun (_ : unit) _ _ c => c)
             (sample_leego [] []) sample_request sample_response []
             _ _ (Some ErrNotFound) _ _ eq_refl eq_refl eq_refl)).
  - reflexivity.
Defined.

(** ** The default error handler *)

Lemma DefaultHTTPErrorHandler_run (err : LeegoError) (w : World)
    (res : engine.Response) :
  response (ctx w) = Some res ->
  DefaultHTTPErrorHandler err w =
  if engine.Committed res then (Returned tt, w)
  else
    match request (ctx w) with
    | Some req =>
        (Returned tt,
         with_response w
           (if String.eqb (engine.Method req) HEAD
            then engine.mkResponse true (error_status err) (engine.Body res)
            else engine.mkResponse true (error_status err)
                   (engine.Body res +:+ error_text (leego_debug w) err)))
    | None => (Panicked "nil pointer dereference", w)
    end.
Proof.
  intros Hres.
  unfold DefaultHTTPErrorHandler, error_status, error_text.
  destruct (asHTTPError err) as [he |] eqn:Has;
    unfold mbind at 1, Go_bind at 1; cbn [get_debug];
    unfold Response_;
    unfold mbind at 1, Go_bind at 1; unfold mbind at 1, Go_bind at 1;
    cbn [get_ctx]; rewrite Hres; cbn [mret Go_ret];
    (destruct (engine.Committed res); cbn [negb]; [reflexivity |]);
    unfold Request_;
    unfold mbind at 1, Go_bind at 1; unfold mbind at 1, Go_bind at 1;
    cbn [get_ctx];
    (destruct (request (ctx w)) as [req |] eqn:Hreq; [| reflexivity]);
    cbn [mret Go_ret];
    (destruct (String.eqb (engine.Method req) HEAD));
    unfold NoContent, String_, Response_, set_response, get_ctx, put_ctx,
      mbind, Go_bind, mret, Go_ret, with_response;
    cbn; rewrite Hres; cbn; rewrite ?Hreq; reflexivity.
Qed.

(** C6.  On a committed response the handler writes nothing: the heap is
    returned as it was.  On an uncommitted response to a HEAD request it
    writes the status only: the response becomes committed with the status
    of the error, and its body is the body it had (empty if it was
    empty), for every error and either setting of the debug flag. *)
Theorem DefaultHTTPErrorHandler_committed_and_HEAD (err : LeegoError)
    (w : World) (res : engine.Response) :
  response (ctx w) = Some res ->
  (engine.Committed res = true ->
   DefaultHTTPErrorHandler err w = (Returned tt, w)) /\
  (forall req,
      engine.Committed res = false ->
      request (ctx w) = Some req ->
      engine.Method req = HEAD ->
      DefaultHTTPErrorHandler err w
      = (Returned tt,
         with_response w
           (engine.mkResponse true (error_status err) (engine.Body res)))).
Proof.
  intros Hres. split.
  - intros Hc. rewrite (DefaultHTTPErrorHandler_run err w res Hres), Hc.
    reflexivity.
  - intros req Hc Hreq Hm.
    rewrite (DefaultHTTPErrorHandler_run err w res Hres), Hc, Hreq, Hm.
    reflexivity.
Qed.

Lemma DefaultHTTPErrorHandler_committed_and_HEAD_witness :
  DefaultHTTPErrorHandler (OtherError "boom") committed_world
  = (Returned tt, committed_world) /\
  DefaultHTTPErrorHandler (OtherError "boom") head_world
  = (Returned tt,
     with_response head_world (engine.mkResponse true 500 "")).
Proof.
  split.
  - exact (proj1 (DefaultHTTPErrorHandler_committed_and_HEAD
                    (OtherError "boom") committed_world
                    (engine.mkResponse true 200 "ok") eq_refl) eq_refl).
  - exact (proj2 (DefaultHTTPErrorHandler_committed_and_HEAD
                    (OtherError "boom") head_world sample_response eq_refl)
                 (engine.mkRequest "HEAD" (engine.mkURL "/a" "") "/a" ∅)
                 eq_refl eq_refl eq_refl).
Defined.

(** C3, as stated, fails where the handler does not write a body: on a
    committed response an error that is no [HTTPError], with debug off,
    leaves the status 200 that was there; and with debug on, a HEAD request
    gets no body, so the body is not the text of the error. *)
Lemma DefaultHTTPErrorHandler_generic_500_counterexample :
  ~ (forall w',
        DefaultHTTPErrorHandler (OtherError "boom") committed_world
        = (Returned tt, w') ->
        engine.Status <$> response (ctx w') = Some 500) /\
  ~ (forall w',
        DefaultHTTPErrorHandler (OtherError "boom") head_debug_world
        = (Returned tt, w') ->
        engine.Body <$> response (ctx w') = Some "boom"%string).
Proof.
  split; intros Hclaim; specialize (Hclaim _ eq_refl); discriminate Hclaim.
Qed.

(** C3, amended.  On a response that is not yet committed, the handler
    writes the status [code] and, unless the method is HEAD, the text [msg]:
    for an error that is no [HTTPError], [code] is 500 and, with debug off,
    [msg] is the status text of 500; with debug on, [msg] is [Error()] of
    the error; for an [HTTPError], [code] and [msg] are its [Code] and
    [Message]. *)
Theorem DefaultHTTPErrorHandler_uncommitted (err : LeegoError) (w : World)
    (res : engine.Response) (req : engine.Request) :
  response (ctx w) = Some res ->
  request (ctx w) = Some req ->
  engine.Committed res = false ->
  exists (code : Z) (msg : string),
    DefaultHTTPErrorHandler err w
    = (Returned tt,
       with_response w
         (if String.eqb (engine.Method req) HEAD
          then engine.mkResponse true code (engine.Body res)
          else engine.mkResponse true code (engine.Body res +:+ msg))) /\
    (asHTTPError err = None ->
     code = 500 /\
     (leego_debug w = false -> msg = "Internal Server Error"%string)) /\
    (leego_debug w = true -> msg = Error err) /\
    (forall he, err = IsHTTPError he -> code = Code he /\ msg = Message he).
Proof.
  intros Hres Hreq Hc.
  exists (error_status err), (error_text (leego_debug w) err).
  split; [| split; [| split]].
  - rewrite (DefaultHTTPErrorHandler_run err w res Hres), Hc, Hreq.
    reflexivity.
  - intros Hno. unfold error_status, error_text. rewrite Hno.
    split; [reflexivity |]. intros Hd. rewrite Hd. reflexivity.
  - intros Hd. unfold error_text. rewrite Hd. reflexivity.
  - intros he ->. unfold error_status, error_text. cbn.
    split; [reflexivity |]. destruct (leego_debug w); reflexivity.
Qed.

Lemma DefaultHTTPErrorHandler_uncommitted_witness :
  DefaultHTTPErrorHandler (OtherError "boom") sample_world
  = (Returned tt,
     with_response sample_world
       (engine.mkResponse true 500 "Internal Server Error")).
Proof.
  destruct (DefaultHTTPErrorHandler_uncommitted (OtherError "boom")
              sample_world sample_response sample_request
              eq_refl eq_refl eq_refl)
    as (code & msg & Hrun & Hplain & _ & _).
  destruct (Hplain eq_refl) as [-> Hmsg]. rewrite (Hmsg eq_refl) in Hrun.
  exact Hrun.
Defined.

(** ** Route registration *)

Lemma routeHandler_cons (h : HandlerFunc) (m : MiddlewareFunc)
    (ms : list MiddlewareFunc) (w : World) :
  routeHandler h (m :: ms) w = (h' ← chain ms h; h'' ← m h'; h'') w.
Proof.
  unfold routeHandler.
  transitivity ((h'' ← (h' ← chain ms h; m h'); h'') w).
  - unfold mbind at 1, Go_bind at 1. rewrite chain_cons. reflexivity.
  - apply bind_assoc.
Qed.

Lemma routeHandler_pure (h : HandlerFunc)
    (fs : list (HandlerFunc -> HandlerFunc)) (w : World) :
  routeHandler h ((fun f next => mret (f next)) <$> fs) w
  = foldr (fun f k => f k) h fs w.
Proof.
  unfold routeHandler. erewrite bind_returned by apply chain_pure.
  reflexivity.
Qed.

(** C4, as stated, fails: the fold is not computed when the route is added.
    With a middleware that records a line each time a chain is folded
    through it, the handler that folding yields records [H] only, while the
    handler [add] stored in the router records the line of the fold before
    [H], on every call. *)
Lemma add_prefolded_counterexample :
  ~ (forall (H stored : HandlerFunc) (w' : World),
        chain [wrap_counter "wrap"] (probe "H") sample_world
        = (Returned H, w') ->
        tree (router (add recording_Add "GET" "/x"
                          (mkNamedHandler "main.h" (probe "H"))
                          [wrap_counter "wrap"] recording_leego))
        = [("GET", "/x", stored)]%string ->
        stored sample_world = H sample_world).
Proof.
  intros Hclaim. specialize (Hclaim _ _ _ eq_refl eq_refl).
  vm_compute in Hclaim. discriminate Hclaim.
Qed.

(** C4, amended.  [add] hands the router the closure [routeHandler], and
    records the route under [method + path]; nothing is folded when the
    route is added.  Each call of the closure folds the route middleware
    around the handler from the last to the first and calls the result: the
    wrapping step of the first middleware runs at that call, after those of
    the rest.  When the wrapping steps have no effect of their own, a call
    behaves as [middleware[0](middleware[1](...(handler)))]. *)
Theorem add_stores_refolding_closure :
  (forall (Tree : Type)
          (Router_Add : string -> string -> HandlerFunc -> Tree * nat -> Tree * nat)
          (method path : string) (handler : NamedHandler)
          (ms : list MiddlewareFunc) (e : Leego Tree),
      let stored := routeHandler (func handler) ms in
      let added := Router_Add method path stored (tree (router e), maxParam e) in
      tree (router (add Router_Add method path handler ms e)) = fst added /\
      maxParam (add Router_Add method path handler ms e) = snd added /\
      routes (router (add Router_Add method path handler ms e))
      = <[method +:+ path := mkRoute method path (handlerName handler)]>
          (routes (router e))) /\
  (forall h w, routeHandler h [] w = h w) /\
  (forall h m ms w,
      routeHandler h (m :: ms) w = (h' ← chain ms h; h'' ← m h'; h'') w) /\
  (forall h (fs : list (HandlerFunc -> HandlerFunc)) w,
      routeHandler h ((fun f next => mret (f next)) <$> fs) w
      = foldr (fun f k => f k) h fs w) /\
  (forall line h w,
      routeHandler h [wrap_counter line] w
      = h (journal_add w [line])).
Proof.
  split; [| split; [| split; [| split]]].
  - intros Tree Router_Add method path handler ms e stored added.
    unfold add. fold stored. fold added. destruct added as [t mp].
    repeat split.
  - reflexivity.
  - exact routeHandler_cons.
  - exact routeHandler_pure.
  - reflexivity.
Qed.

(** ** Properties of the trailing-slash handlers *)

Section TrailingSlashFacts.

Import middleware.

Variable Redirect : Z -> string -> HandlerFunc.

Lemma bytes_length (s : string) : length (bytes s) = String.length s.
Proof.
  unfold bytes. induction s as [| b s IH]; cbn; [reflexivity | by rewrite IH].
Qed.

Lemma index_last (s : string) (w : World) :
  s <> EmptyString ->
  exists b, last (bytes s) = Some b /\
            index_byte s (Z.of_nat (String.length s) - 1) w = (Returned b, w).
Proof.
  intros Hne. unfold index_byte.
  assert (Hlen : (0 < String.length s)%nat)
    by (destruct s; [done | cbn; lia]).
  replace (Z.to_nat (Z.of_nat (String.length s) - 1))
    with (Nat.pred (length (bytes s))) by (rewrite bytes_length; lia).
  rewrite <- last_lookup.
  destruct (last (bytes s)) as [b |] eqn:Hlast.
  - exists b. split; [reflexivity |].
    replace ((Z.of_nat (String.length s) - 1 <? 0)
             || (Z.of_nat (String.length s) <=? Z.of_nat (String.length s) - 1))
      with false; [reflexivity |].
    symmetry. apply orb_false_iff. split; [apply Z.ltb_ge | apply Z.leb_gt]; lia.
  - apply last_None in Hlast. apply (f_equal length) in Hlast.
    rewrite bytes_length in Hlast. cbn in Hlast. lia.
Qed.



Lemma Request_run (w : World) (req : engine.Request) :
  request (ctx w) = Some req -> Request_ w = (Returned req, w).
Proof.
  intros Hreq. unfold Request_, mbind, Go_bind, get_ctx. rewrite Hreq.
  reflexivity.
Qed.

Lemma set_request_run (w : World) (r : engine.Request) :
  set_request r w = (Returned tt, with_request w r).
Proof. reflexivity. Qed.

Lemma ends_with_slash_last (s : string) (b : ascii) :
  last (bytes s) = Some b -> ends_with_slash s = Ascii.eqb b "/"%char.
Proof. intros Hl. unfold ends_with_slash. rewrite Hl. reflexivity. Qed.

Lemma addTrailingSlash_run (config : TrailingSlashConfig)
    (next : HandlerFunc) (w w1 : World) (req : engine.Request) :
  call_Skipper config w = (Returned false, w1) ->
  request (ctx w1) = Some req ->
  let path := engine.Path (engine.url req) in
  let qs := engine.QueryString (engine.url req) in
  addTrailingSlash Redirect config next w =
  if String.eqb path ""
  then (Panicked "index out of range", w1)
  else if negb (String.eqb path "/") && negb (ends_with_slash path) then
    let path' := path +:+ "/" in
    let uri := if negb (String.eqb qs "") then path' +:+ "?" +:+ qs
               else path' in
    if negb (RedirectCode config =? 0)
    then Redirect (RedirectCode config) uri w1
    else next (with_request w1
                 (engine.SetPath path' (engine.SetURI uri req)))
  else next w1.
Proof.
  intros Hskip Hreq path qs. unfold addTrailingSlash.
  erewrite bind_returned by exact Hskip. cbv beta iota.
  erewrite bind_returned by (apply Request_run; exact Hreq).
  fold path qs.
  destruct (String.eqb path "") eqn:Hempty.
  - apply String.eqb_eq in Hempty. rewrite Hempty. reflexivity.
  - apply String.eqb_neq in Hempty.
    destruct (String.eqb path "/") eqn:Hroot; cbn [negb andb].
    + reflexivity.
    + destruct (index_last path w1 Hempty) as (b & Hlast & Hidx).
      rewrite (ends_with_slash_last _ _ Hlast).
      unfold mbind at 1, Go_bind at 1.
      erewrite bind_returned by exact Hidx.
      cbn [mret Go_ret].
      destruct (Ascii.eqb b "/"); cbn [negb]; [reflexivity |].
      destruct (negb (RedirectCode config =? 0)); reflexivity.
Qed.

Lemma removeTrailingSlash_run (config : TrailingSlashConfig)
    (next : HandlerFunc) (w w1 : World) (req : engine.Request) :
  call_Skipper config w = (Returned false, w1) ->
  request (ctx w1) = Some req ->
  let path := engine.Path (engine.url req) in
  let qs := engine.QueryString (engine.url req) in
  removeTrailingSlash Redirect config next w =
  if negb (String.eqb path "/") && ends_with_slash path then
    let path' := slice_to path (Z.of_nat (String.length path) - 1) in
    let uri := if negb (String.eqb qs "") then path' +:+ "?" +:+ qs
               else path' in
    if negb (RedirectCode config =? 0)
    then Redirect (RedirectCode config) uri w1
    else next (with_request w1
                 (engine.SetPath path' (engine.SetURI uri req)))
  else next w1.
Proof.
  intros Hskip Hreq path qs. unfold removeTrailingSlash.
  erewrite bind_returned by exact Hskip. cbv beta iota.
  erewrite bind_returned by (apply Request_run; exact Hreq).
  fold path qs.
  destruct (String.eqb path "") eqn:Hempty.
  - apply String.eqb_eq in Hempty. rewrite Hempty. reflexivity.
  - apply String.eqb_neq in Hempty.
    assert (Hl : (0 <=? Z.of_nat (String.length path) - 1) = true).
    { apply Z.leb_le. destruct path; [done | cbn [String.length]; lia]. }
    rewrite Hl.
    destruct (String.eqb path "/") eqn:Hroot; cbn [negb andb].
    + reflexivity.
    + destruct (index_last path w1 Hempty) as (b & Hlast & Hidx).
      rewrite (ends_with_slash_last _ _ Hlast).
      unfold mbind at 1, Go_bind at 1.
      erewrite bind_returned by exact Hidx.
      cbn [mret Go_ret].
      destruct (Ascii.eqb b "/"); [| reflexivity].
      destruct (negb (RedirectCode config =? 0)); reflexivity.
Qed.

End TrailingSlashFacts.

(** C5.  With the skipper answering false and no redirect code, the handler
    of [AddTrailingSlashWithConfig] turns path [/a] with query string [x=1]
    into path [/a/] and URI [/a/?x=1], leaving the query string, and calls
    [next]; the handler of [RemoveTrailingSlashWithConfig] turns path [/a/]
    into [/a], with the URI [/a] followed by the query string if there is
    one.  On the root path [/], whatever the redirect code, both call [next]
    on the request as it is. *)
Theorem trailing_slash_forward (defaultSkipper : middleware.Skipper)
    (Redirect : Z -> string -> HandlerFunc)
    (config : middleware.TrailingSlashConfig) (next : HandlerFunc)
    (w w1 : World) (req : engine.Request) :
  let config' := middleware.with_defaults defaultSkipper config in
  let path := engine.Path (engine.url req) in
  let qs := engine.QueryString (engine.url req) in
  middleware.call_Skipper config' w = (Returned false, w1) ->
  request (ctx w1) = Some req ->
  (forall w0,
      middleware.AddTrailingSlashWithConfig defaultSkipper Redirect config next w0
      = (Returned (middleware.addTrailingSlash Redirect config' next), w0) /\
      middleware.RemoveTrailingSlashWithConfig defaultSkipper Redirect config next w0
      = (Returned (middleware.removeTrailingSlash Redirect config' next), w0)) /\
  (middleware.RedirectCode config = 0 ->
   path = "/a"%string -> qs = "x=1"%string ->
   middleware.addTrailingSlash Redirect config' next w
   = next (with_request w1
             (engine.mkRequest (engine.Method req) (engine.mkURL "/a/" "x=1")
                               "/a/?x=1" (engine.Header req)))) /\
  (middleware.RedirectCode config = 0 ->
   path = "/a/"%string ->
   middleware.removeTrailingSlash Redirect config' next w
   = next (with_request w1
             (engine.mkRequest (engine.Method req) (engine.mkURL "/a" qs)
                (if negb (String.eqb qs "") then "/a?" +:+ qs else "/a")
                (engine.Header req)))) /\
  (path = "/"%string ->
   middleware.addTrailingSlash Redirect config' next w = next w1 /\
   middleware.removeTrailingSlash Redirect config' next w = next w1).
Proof.
  intros config' path qs Hskip Hreq.
  assert (Hcode : middleware.RedirectCode config' = middleware.RedirectCode config).
  { unfold config', middleware.with_defaults.
    destruct (middleware.Skipper_ config); reflexivity. }
  split; [| split; [| split]].
  - intros w0. split; reflexivity.
  - intros H0 Hpath Hqs.
    rewrite (addTrailingSlash_run Redirect config' next w w1 req Hskip Hreq).
    unfold path, qs in *. rewrite Hcode, H0, Hpath, Hqs.
    cbn. unfold engine.SetPath, engine.SetURI.
    cbn [engine.url engine.QueryString engine.Method engine.Header engine.URI].
    rewrite Hqs. reflexivity.
  - intros H0 Hpath.
    rewrite (removeTrailingSlash_run Redirect config' next w w1 req Hskip Hreq).
    unfold path, qs in *. rewrite Hcode, H0, Hpath. cbn.
    unfold engine.SetPath, engine.SetURI.
    cbn [engine.url engine.QueryString engine.Method engine.Header engine.URI].
    destruct (String.eqb _ ""); reflexivity.
  - intros Hpath. split.
    + rewrite (addTrailingSlash_run Redirect config' next w w1 req Hskip Hreq).
      fold path. rewrite Hpath. reflexivity.
    + rewrite (removeTrailingSlash_run Redirect config' next w w1 req Hskip Hreq).
      fold path. rewrite Hpath. reflexivity.
Qed.

Lemma trailing_slash_forward_witness :
  middleware.addTrailingSlash sample_Redirect
    (middleware.with_defaults (mret false) (middleware.mkTrailingSlashConfig None 0))
    (probe "next") sample_world
  = probe "next"
      (with_request sample_world
         (engine.mkRequest "GET" (engine.mkURL "/a/" "x=1") "/a/?x=1" ∅)).
Proof.
  exact (proj1 (proj2 (trailing_slash_forward (mret false) sample_Redirect
           (middleware.mkTrailingSlashConfig None 0) (probe "next")
           sample_world sample_world sample_request eq_refl eq_refl))
         eq_refl eq_refl eq_refl).
Defined.

(** C9.  Once the skipper has answered false, the handler of
    [RemoveTrailingSlashWithConfig] is defined on every request path: its
    result is that of [next] or of [Redirect], and on the empty path it is
    [next] on the request as it is.  The handler of
    [AddTrailingSlashWithConfig] reads [path[len(path)-1]] whenever the path
    is not [/]: on the empty path that index is [-1] and the handler panics;
    on every other path the read is in range and the result is that of
    [next] or of [Redirect]. *)
Theorem trailing_slash_index_safety (Redirect : Z -> string -> HandlerFunc)
    (config : middleware.TrailingSlashConfig) (next : HandlerFunc)
    (w w1 : World) (req : engine.Request) :
  let path := engine.Path (engine.url req) in
  let qs := engine.QueryString (engine.url req) in
  let forward := fun path' : string =>
    let uri := if negb (String.eqb qs "") then path' +:+ "?" +:+ qs else path' in
    if negb (middleware.RedirectCode config =? 0)
    then Redirect (middleware.RedirectCode config) uri w1
    else next (with_request w1 (engine.SetPath path' (engine.SetURI uri req))) in
  middleware.call_Skipper config w = (Returned false, w1) ->
  request (ctx w1) = Some req ->
  middleware.removeTrailingSlash Redirect config next w
  = (if negb (String.eqb path "/") && ends_with_slash path
     then forward (slice_to path (Z.of_nat (String.length path) - 1))
     else next w1) /\
  (path = EmptyString ->
   middleware.removeTrailingSlash Redirect config next w = next w1) /\
  (path = EmptyString ->
   middleware.addTrailingSlash Redirect config next w
   = (Panicked "index out of range", w1)) /\
  (path <> EmptyString ->
   middleware.addTrailingSlash Redirect config next w
   = (if negb (String.eqb path "/") && negb (ends_with_slash path)
      then forward (path +:+ "/")
      else next w1)).
Proof.
  intros path qs forward Hskip Hreq.
  pose proof (removeTrailingSlash_run Redirect config next w w1 req Hskip Hreq)
    as Hrem.
  pose proof (addTrailingSlash_run Redirect config next w w1 req Hskip Hreq)
    as Hadd.
  cbv zeta in Hrem, Hadd. fold path qs in Hrem, Hadd.
  split; [exact Hrem |]. split; [| split].
  - intros Hp. rewrite Hrem, Hp. reflexivity.
  - intros Hp. rewrite Hadd, Hp. reflexivity.
  - intros Hp. rewrite Hadd.
    apply String.eqb_neq in Hp. rewrite Hp. reflexivity.
Qed.

Lemma trailing_slash_index_safety_witness :
  middleware.removeTrailingSlash sample_Redirect sample_config (probe "next")
    empty_path_world
  = probe "next" empty_path_world /\
  middleware.addTrailingSlash sample_Redirect sample_config (probe "next")
    empty_path_world
  = (Panicked "index out of range", empty_path_world) /\
  middleware.addTrailingSlash sample_Redirect sample_config (probe "next")
    sample_world
  = probe "next"
      (with_request sample_world
         (engine.mkRequest "GET" (engine.mkURL "/a/" "x=1") "/a/?x=1" ∅)).
Proof.
  pose proof (trailing_slash_index_safety sample_Redirect sample_config
                (probe "next") empty_path_world empty_path_world
                (engine.mkRequest "GET" (engine.mkURL "" "") "" ∅)
                eq_refl eq_refl) as (_ & Hrem & Hadd & _).
  pose proof (trailing_slash_index_safety sample_Redirect sample_config
                (probe "next") sample_world sample_world sample_request
                eq_refl eq_refl) as (_ & _ & _ & Hin).
  split; [exact (Hrem eq_refl) |]. split; [exact (Hadd eq_refl) |].
  rewrite Hin by discriminate. reflexivity.
Defined.

(** ** Reverse URI generation *)

Lemma skip_name_spec (path : list ascii) (l : nat) :
  length path = l ->
  forall fuel i,
    (l - i <= fuel)%nat ->
    skip_name path l fuel i = (i + name_len (drop i path))%nat.
Proof.
  intros Hl fuel. induction fuel as [| fuel IH]; intros i Hfuel.
  - rewrite drop_ge by lia. cbn. lia.
  - cbn [skip_name]. destruct (path !! i) as [b |] eqn:Hb.
    + pose proof (lookup_lt_Some _ _ _ Hb) as Hlt.
      rewrite (drop_S _ _ _ Hb). cbn [name_len].
      replace (i <? l)%nat with true by (symmetry; apply Nat.ltb_lt; lia).
      destruct (Ascii.eqb b "/"); cbn [andb negb]; [lia |].
      rewrite IH by lia. lia.
    + apply lookup_ge_None in Hb. rewrite drop_ge by lia. cbn. lia.
Qed.

Lemma walk_skipping (p : list ascii) (vals : list any) :
  walk true p vals =
  match drop (name_len p) p with
  | [] => []
  | b :: p' => b :: walk false p' vals
  end.
Proof.
  induction p as [| b p IH]; [reflexivity |].
  cbn [walk name_len]. destruct (Ascii.eqb b "/") eqn:Hb.
  - reflexivity.
  - rewrite IH. reflexivity.
Qed.

Lemma uri_loop_done (path : list ascii) (params : list any) (l fuel i n : nat)
    (uri : list ascii) :
  (l <= i)%nat -> uri_loop path params l fuel i n uri = uri.
Proof.
  intros Hi. destruct fuel; [reflexivity |]. cbn [uri_loop].
  replace (i <? l)%nat with false by (symmetry; apply Nat.ltb_ge; lia).
  reflexivity.
Qed.

Lemma uri_loop_spec (path : list ascii) (params : list any) (l : nat) :
  length path = l ->
  forall fuel i n uri,
    (l - i <= fuel)%nat ->
    uri_loop path params l fuel i n uri
    = uri ++ walk false (drop i path) (drop n params).
Proof.
  intros Hl fuel. induction fuel as [| fuel IH]; intros i n uri Hfuel.
  - rewrite (drop_ge path) by lia. cbn. by rewrite app_nil_r.
  - destruct (le_lt_dec l i) as [Hge | Hlt].
    { rewrite uri_loop_done by lia. rewrite (drop_ge path) by lia.
      cbn. by rewrite app_nil_r. }
    cbn [uri_loop].
    replace (i <? l)%nat with true by (symmetry; apply Nat.ltb_lt; lia).
    destruct (lookup_lt_is_Some_2 path i ltac:(lia)) as [b Hb].
    rewrite Hb, (drop_S _ _ _ Hb). cbn [walk].
    destruct (params !! n) as [v |] eqn:Hv.
    + pose proof (lookup_lt_Some _ _ _ Hv) as Hn.
      replace (n <? length params)%nat with true
        by (symmetry; apply Nat.ltb_lt; lia).
      rewrite (drop_S _ _ _ Hv), andb_true_r.
      destruct (Ascii.eqb b ":") eqn:Hcolon.
      * rewrite (skip_name_spec path l Hl) by lia.
        rewrite (drop_S _ _ _ Hb). cbn [name_len].
        assert (Hns : Ascii.eqb b "/" = false).
        { apply Ascii.eqb_eq in Hcolon. subst b. reflexivity. }
        rewrite Hns, walk_skipping.
        replace (drop (name_len (drop (S i) path)) (drop (S i) path))
          with (drop (i + S (name_len (drop (S i) path))) path)
          by (rewrite drop_drop; f_equal; lia).
        set (i' := (i + S (name_len (drop (S i) path)))%nat).
        destruct (path !! i') as [b' |] eqn:Hb'.
        -- pose proof (lookup_lt_Some _ _ _ Hb') as Hlt'.
           replace (i' <? l)%nat with true by (symmetry; apply Nat.ltb_lt; lia).
           rewrite (drop_S _ _ _ Hb'), IH by lia.
           by rewrite <- !app_assoc.
        -- apply lookup_ge_None in Hb'.
           rewrite uri_loop_done by lia. rewrite drop_ge by lia.
           by rewrite app_nil_r.
      * rewrite Hb.
        replace (i <? l)%nat with true by (symmetry; apply Nat.ltb_lt; lia).
        rewrite IH by lia. by rewrite (drop_S _ _ _ Hv), <- app_assoc.
    + rewrite Hb.
      replace (i <? l)%nat with true by (symmetry; apply Nat.ltb_lt; lia).
      rewrite IH by lia. rewrite <- app_assoc. cbn.
      apply lookup_ge_None in Hv. rewrite (drop_ge params) by lia.
      destruct (Ascii.eqb b ":"); reflexivity.
Qed.

Lemma uri_of_path_walk (path : string) (params : list any) :
  uri_of_path path params
  = String.string_of_list_ascii (walk false (bytes path) params).
Proof.
  unfold uri_of_path.
  rewrite (uri_loop_spec (bytes path) params (String.length path))
    by (apply bytes_length || lia).
  reflexivity.
Qed.

Lemma bytes_app (a b : string) : bytes (a +:+ b) = bytes a ++ bytes b.
Proof.
  unfold bytes. induction a as [| c a IH]; [reflexivity |].
  change (String c a +:+ b) with (String c (a +:+ b)).
  cbn [String.list_ascii_of_string]. by rewrite IH.
Qed.

Lemma bytes_of_list (l : list ascii) : bytes (String.string_of_list_ascii l) = l.
Proof. apply String.list_ascii_of_string_of_list_ascii. Qed.

Lemma string_of_bytes (s : string) : String.string_of_list_ascii (bytes s) = s.
Proof. apply String.string_of_list_ascii_of_string. Qed.

Lemma walk_no_vals (p : list ascii) : walk false p [] = p.
Proof.
  induction p as [| b p IH]; [reflexivity |]. cbn [walk].
  rewrite IH. destruct (Ascii.eqb b ":"); reflexivity.
Qed.

Lemma walk_static (s q : list ascii) (vals : list any) :
  ":"%char ∉ s -> walk false (s ++ q) vals = s ++ walk false q vals.
Proof.
  induction s as [| b s IH]; intros Hs; [reflexivity |].
  apply not_elem_of_cons in Hs as [Hb Hs]. cbn [app walk].
  replace (Ascii.eqb b ":") with false
    by (symmetry; apply Ascii.eqb_neq; congruence).
  by rewrite IH.
Qed.

Lemma walk_skip_end (s : list ascii) (vals : list any) :
  "/"%char ∉ s -> walk true s vals = [].
Proof.
  induction s as [| b s IH]; intros Hs; [reflexivity |].
  apply not_elem_of_cons in Hs as [Hb Hs]. cbn [walk].
  replace (Ascii.eqb b "/") with false
    by (symmetry; apply Ascii.eqb_neq; congruence).
  by apply IH.
Qed.

Lemma walk_skip_to_slash (s q : list ascii) (vals : list any) :
  "/"%char ∉ s ->
  walk true (s ++ "/"%char :: q) vals = "/"%char :: walk false q vals.
Proof.
  induction s as [| b s IH]; intros Hs; [reflexivity |].
  apply not_elem_of_cons in Hs as [Hb Hs]. cbn [app walk].
  replace (Ascii.eqb b "/") with false
    by (symmetry; apply Ascii.eqb_neq; congruence).
  by apply IH.
Qed.

Lemma join_slash_cons (s : string) (rest : list string) :
  rest <> [] -> join_slash (s :: rest) = s +:+ "/" +:+ join_slash rest.
Proof. destruct rest; [done | reflexivity]. Qed.

Lemma substitute_no_vals (segs : list string) : substitute segs [] = segs.
Proof.
  induction segs as [| s segs IH]; [reflexivity |]. cbn [substitute].
  rewrite IH. destruct (is_param s); reflexivity.
Qed.

Lemma substitute_nonempty (segs : list string) (vals : list any) :
  segs <> [] -> substitute segs vals <> [].
Proof.
  destruct segs as [| s segs]; [done |]. intros _. cbn [substitute].
  destruct (is_param s); [destruct vals |]; discriminate.
Qed.

Lemma is_param_bytes (s : string) :
  is_param s = true -> exists name, s = String ":" name.
Proof.
  destruct s as [| b name]; [discriminate |]. cbn. intros Hb.
  apply Ascii.eqb_eq in Hb. subst b. by exists name.
Qed.

Lemma substitute_cons (s : string) (rest : list string) (v : any)
    (vs : list any) :
  substitute (s :: rest) (v :: vs)
  = if is_param s then Sprintf_v v :: substitute rest vs
    else s :: substitute rest (v :: vs).
Proof. reflexivity. Qed.

(** The loop of [URI] on a path equals the substitution by segments. *)
Lemma substitute_refines (segs : list string) :
  Forall segment_ok segs ->
  forall vals,
    walk false (bytes (join_slash segs)) vals
    = bytes (join_slash (substitute segs vals)).
Proof.
  induction segs as [| s rest IH]; intros Hok vals; [reflexivity |].
  destruct vals as [| v vs].
  { by rewrite walk_no_vals, substitute_no_vals. }
  apply Forall_cons in Hok as [[Hslash Hcolon] Hrest].
  rewrite substitute_cons.
  destruct rest as [| t rest'].
  - cbn [join_slash substitute]. destruct (is_param s) eqn:Hp.
    + destruct (is_param_bytes s Hp) as [name ->].
      change (bytes (String ":" name)) with (":"%char :: bytes name) in *.
      apply not_elem_of_cons in Hslash as [_ Hslash]. cbn [walk].
      replace (Ascii.eqb ":" ":") with true by reflexivity.
      rewrite walk_skip_end by exact Hslash. by rewrite app_nil_r.
    + rewrite <- (app_nil_r (bytes s)) at 1.
      rewrite walk_static by auto. cbn [walk join_slash].
      by rewrite !app_nil_r.
  - rewrite join_slash_cons by discriminate.
    rewrite !bytes_app.
    change (bytes "/") with ["/"%char]. cbn [app].
    destruct (is_param s) eqn:Hp.
    + destruct (is_param_bytes s Hp) as [name ->].
      change (bytes (String ":" name)) with (":"%char :: bytes name) in *.
      apply not_elem_of_cons in Hslash as [_ Hslash]. cbn [app walk].
      replace (Ascii.eqb ":" ":") with true by reflexivity.
      rewrite walk_skip_to_slash by exact Hslash.
      rewrite IH by exact Hrest.
      rewrite join_slash_cons by (apply substitute_nonempty; discriminate).
      rewrite !bytes_app. reflexivity.
    + rewrite walk_static by auto. cbn [walk].
      replace (Ascii.eqb "/" ":") with false by reflexivity.
      rewrite IH by exact Hrest.
      rewrite join_slash_cons by (apply substitute_nonempty; discriminate).
      rewrite !bytes_app. reflexivity.
Qed.

Lemma segments_of_nonempty (p : list ascii) : segments_of p <> [].
Proof.
  destruct p as [| b p]; [discriminate |]. cbn [segments_of].
  destruct (Ascii.eqb b "/"); [discriminate |].
  destruct (segments_of p); discriminate.
Qed.

Lemma segments_of_no_slash (p : list ascii) :
  Forall (fun s => "/"%char ∉ s) (segments_of p).
Proof.
  induction p as [| b p IH]; cbn [segments_of].
  - repeat constructor. apply not_elem_of_nil.
  - destruct (Ascii.eqb b "/") eqn:Hb.
    + constructor; [apply not_elem_of_nil | exact IH].
    + destruct (segments_of p) as [| s ss].
      * repeat constructor. apply not_elem_of_cons. split.
        -- apply Ascii.eqb_neq in Hb. congruence.
        -- apply not_elem_of_nil.
      * apply Forall_cons in IH as [Hs Hss]. constructor; [| exact Hss].
        apply not_elem_of_cons. split; [| exact Hs].
        apply Ascii.eqb_neq in Hb. congruence.
Qed.

Lemma join_slash_segments_of (p : list ascii) :
  bytes (join_slash (String.string_of_list_ascii <$> segments_of p)) = p.
Proof.
  induction p as [| b p IH]; [reflexivity |]. cbn [segments_of].
  pose proof (segments_of_nonempty p) as Hne.
  destruct (Ascii.eqb b "/") eqn:Hb.
  - apply Ascii.eqb_eq in Hb. subst b. rewrite fmap_cons.
    rewrite join_slash_cons by (destruct (segments_of p); [done | discriminate]).
    rewrite !bytes_app, IH. reflexivity.
  - destruct (segments_of p) as [| s ss]; [done |].
    rewrite !fmap_cons in *. destruct ss as [| s2 ss].
    + cbn [fmap list_fmap join_slash] in *.
      rewrite bytes_of_list in *. by rewrite IH.
    + rewrite join_slash_cons in * by discriminate.
      rewrite !bytes_app, !bytes_of_list in *. cbn [app]. by rewrite IH.
Qed.

Lemma join_slash_segments (path : string) : join_slash (segments path) = path.
Proof.
  rewrite <- (string_of_bytes (join_slash (segments path))).
  unfold segments. rewrite join_slash_segments_of. apply string_of_bytes.
Qed.

Lemma no_colon_spec (seg : string) :
  no_colon seg = true -> ":"%char ∉ bytes seg.
Proof.
  unfold no_colon. intros Hall Hin.
  rewrite forallb_forall in Hall. apply list_elem_of_In in Hin.
  specialize (Hall _ Hin). discriminate Hall.
Qed.

Lemma segments_ok (path : string) :
  static_segments_clean path = true -> Forall segment_ok (segments path).
Proof.
  unfold static_segments_clean, segments. intros Hclean.
  rewrite forallb_forall in Hclean.
  apply Forall_forall. intros seg Hin. split.
  - apply list_elem_of_fmap in Hin as (s & -> & Hs).
    pose proof (segments_of_no_slash (bytes path)) as Hno.
    rewrite Forall_forall in Hno. rewrite bytes_of_list. by apply Hno.
  - intros Hp. apply no_colon_spec.
    apply list_elem_of_In in Hin. specialize (Hclean _ Hin).
    rewrite Hp in Hclean. exact Hclean.
Qed.

Lemma uri_of_path_spec (path : string) (vals : list any) :
  static_segments_clean path = true ->
  uri_of_path path vals = URI_spec path vals.
Proof.
  intros Hclean. rewrite uri_of_path_walk. unfold URI_spec.
  rewrite <- (join_slash_segments path) at 1.
  rewrite substitute_refines by (apply segments_ok; exact Hclean).
  apply string_of_bytes.
Qed.

Lemma URI_range_find (rs : list Route) (name : string) (params : list any) :
  URI_range rs name params
  = match List.find (fun r => String.eqb (Handler r) name) rs with
    | Some r => uri_of_path (Path r) params
    | None => EmptyString
    end.
Proof.
  induction rs as [| r rs IH]; [reflexivity |]. cbn [URI_range List.find].
  destruct (String.eqb (Handler r) name); [reflexivity | exact IH].
Qed.

Lemma range_order_elem (m : gmap string Route) (rs : list Route) (r : Route) :
  range_order m rs -> r ∈ rs <-> exists k, m !! k = Some r.
Proof.
  unfold range_order. intros Hperm. rewrite Hperm, list_elem_of_fmap. split.
  - intros ([k r'] & -> & Hin). exists k. by apply elem_of_map_to_list.
  - intros [k Hk]. exists (k, r). split; [reflexivity |].
    by apply elem_of_map_to_list.
Qed.

Lemma find_none_named (rs : list Route) (name : string) :
  (forall r, r ∈ rs -> Handler r <> name) ->
  List.find (fun r => String.eqb (Handler r) name) rs = None.
Proof.
  induction rs as [| r rs IH]; intros Hnone; [reflexivity |]. cbn [List.find].
  replace (String.eqb (Handler r) name) with false.
  - apply IH. intros r' Hin. apply Hnone. by right.
  - symmetry. apply String.eqb_neq. apply Hnone. by left.
Qed.

Lemma find_named_path (rs : list Route) (name path : string) :
  (exists r, r ∈ rs /\ Handler r = name) ->
  (forall r, r ∈ rs -> Handler r = name -> Path r = path) ->
  exists r, List.find (fun r => String.eqb (Handler r) name) rs = Some r /\
            Path r = path.
Proof.
  induction rs as [| r rs IH]; intros (r0 & Hin & Hname) Hall.
  - by apply elem_of_nil in Hin.
  - cbn [List.find]. destruct (String.eqb (Handler r) name) eqn:Hr.
    + exists r. split; [reflexivity |]. apply Hall; [by left |].
      by apply String.eqb_eq.
    + apply IH.
      * apply elem_of_cons in Hin as [-> | Hin].
        -- apply String.eqb_neq in Hr. done.
        -- by exists r0.
      * intros r' Hin'. apply Hall. by right.
Qed.

(** C2, as stated, fails: the registry is a map, which [range] may visit in
    any order, so with one handler registered at [/a] and then at [/b] the
    route used need not be the first registered, whose path gives [/a]. *)
Lemma URI_first_registered_counterexample :
  ~ (forall rs : list Route,
        range_order (routes (router twice_registered)) rs ->
        URI rs main_h [] = URI_spec "/a" []).
Proof.
  intros Hclaim.
  specialize (Hclaim [mkRoute "GET" "/b" "main.h"; mkRoute "GET" "/a" "main.h"]).
  assert (Hlist : (map_to_list (routes (router twice_registered))).*2
                  = [mkRoute "GET" "/a" "main.h"; mkRoute "GET" "/b" "main.h"])
    by (vm_compute; reflexivity).
  unfold range_order in Hclaim. rewrite Hlist in Hclaim.
  specialize (Hclaim (perm_swap _ _ _)).
  vm_compute in Hclaim. discriminate Hclaim.
Qed.

(** C2, amended.  [URI] uses the first route of that handler name that the
    iteration over the registry map meets, in an order the language leaves
    open.  If no route of the registry has the name, the result is empty.
    If every route that has the name has the same path, the result does not
    depend on the order: it is what the loop makes of that path, which is,
    when [:] occurs only at the start of segments, the path with each
    [:name] segment replaced, in pattern order, by the next supplied value,
    segments beyond the supplied values being kept; for the path
    [/posts/:id/comments/:cid] and the values 7 and 3 it is
    [/posts/7/comments/3]. *)
Theorem URI_of_registered_handler (m : gmap string Route) (rs : list Route)
    (handler : NamedHandler) (params : list any) :
  range_order m rs ->
  URI rs handler params
  = match List.find (fun r => String.eqb (Handler r) (handlerName handler)) rs with
    | Some r => uri_of_path (Path r) params
    | None => EmptyString
    end /\
  ((forall k r, m !! k = Some r -> Handler r <> handlerName handler) ->
   URI rs handler params = EmptyString) /\
  (forall k r,
      m !! k = Some r ->
      Handler r = handlerName handler ->
      (forall k' r', m !! k' = Some r' -> Handler r' = handlerName handler ->
                     Path r' = Path r) ->
      URI rs handler params = uri_of_path (Path r) params /\
      (static_segments_clean (Path r) = true ->
       URI rs handler params = URI_spec (Path r) params) /\
      (Path r = "/posts/:id/comments/:cid"%string ->
       params = [VString "7"; VString "3"] ->
       URI rs handler params = "/posts/7/comments/3"%string)).
Proof.
  intros Horder. unfold URI. rewrite URI_range_find.
  split; [reflexivity |]. split.
  - intros Hnone. rewrite find_none_named; [reflexivity |].
    intros r Hin. apply (range_order_elem m rs r Horder) in Hin as [k Hk].
    by apply (Hnone k).
  - intros k r Hk Hname Hall.
    destruct (find_named_path rs (handlerName handler) (Path r))
      as (r1 & -> & Hpath).
    + exists r. split; [| exact Hname].
      apply (range_order_elem m rs r Horder). by exists k.
    + intros r' Hin Hn.
      apply (range_order_elem m rs r' Horder) in Hin as [k' Hk'].
      by apply (Hall k').
    + rewrite Hpath. split; [reflexivity |]. split.
      * apply uri_of_path_spec.
      * intros -> ->. vm_compute. reflexivity.
Qed.

Lemma URI_of_registered_handler_witness :
  URI [comments_route] (mkNamedHandler "main.comments" (probe "H"))
      [VString "7"; VString "3"]
  = "/posts/7/comments/3"%string /\
  URI [comments_route] (mkNamedHandler "main.other" (probe "H"))
      [VString "7"; VString "3"]
  = EmptyString.
Proof.
  assert (Horder : range_order
            {[ "GET/posts/:id/comments/:cid"%string := comments_route ]}
            [comments_route]).
  { unfold range_order. rewrite map_to_list_singleton. reflexivity. }
  split.
  - refine (proj2 (proj2 (proj2 (proj2
      (URI_of_registered_handler _ _
         (mkNamedHandler "main.comments" (probe "H"))
         [VString "7"; VString "3"] Horder))
      "GET/posts/:id/comments/:cid"%string comments_route _ eq_refl _))
      eq_refl eq_refl).
    + apply lookup_singleton_eq.
    + intros k' r' Hk' _. apply lookup_singleton_Some in Hk' as [_ <-].
      reflexivity.
  - refine (proj1 (proj2
      (URI_of_registered_handler _ _
         (mkNamedHandler "main.other" (probe "H"))
         [VString "7"; VString "3"] Horder)) _).
    intros k r Hk. apply lookup_singleton_Some in Hk as [_ <-].
    discriminate.
Defined.

(** * Further properties *)

(** ** Registering and composing middleware *)

Lemma chain_app (ms1 ms2 : list MiddlewareFunc) (h : HandlerFunc) (w : World) :
  chain (ms1 ++ ms2) h w = (h' ← chain ms2 h; chain ms1 h') w.
Proof.
  revert w. induction ms1 as [| m ms1 IH]; intros w.
  - cbn [app]. symmetry. apply bind_ret_r.
  - cbn [app]. rewrite chain_cons.
    transitivity ((h' ← (h'' ← chain ms2 h; chain ms1 h''); m h') w).
    + unfold mbind at 1 3, Go_bind at 1 3. rewrite IH. reflexivity.
    + rewrite bind_assoc. apply bind_ext. intros h' w'.
      symmetry. apply chain_cons.
Qed.

(** X1.  [Pre] and [Use] append to their own list and leave the other list
    alone, so they commute; middleware registered by a later call wraps the
    handler before the middleware registered earlier, that is, closer to
    the handler. *)
Theorem Pre_Use_register_inside {Tree : Type} (e : Leego Tree)
    (ms ms' : list MiddlewareFunc) :
  premiddleware (Pre ms' (Pre ms e)) = premiddleware e ++ ms ++ ms' /\
  middleware (Use ms' (Use ms e)) = middleware e ++ ms ++ ms' /\
  middleware (Pre ms e) = middleware e /\
  premiddleware (Use ms e) = premiddleware e /\
  Pre ms (Use ms' e) = Use ms' (Pre ms e) /\
  (forall h w,
      chain (premiddleware (Pre ms e)) h w
      = (h' ← chain ms h; chain (premiddleware e) h') w) /\
  (forall h w,
      chain (middleware (Use ms e)) h w
      = (h' ← chain ms h; chain (middleware e) h') w).
Proof.
  repeat split.
  - cbn. by rewrite app_assoc.
  - cbn. by rewrite app_assoc.
  - intros h w. apply chain_app.
  - intros h w. apply chain_app.
Qed.

(** X2.  The loop of [chain] never indexes out of range: if every wrapping
    step of the list returns, so does the chain. *)
Theorem chain_returns (ms : list MiddlewareFunc) :
  (forall m, m ∈ ms ->
             forall h w, exists h' w', m h w = (Returned h', w')) ->
  forall h w, exists h' w', chain ms h w = (Returned h', w').
Proof.
  induction ms as [| m ms IH]; intros Hall h w.
  - exists h, w. reflexivity.
  - destruct (IH (fun m' Hin => Hall m' (list_elem_of_further _ _ _ Hin)) h w)
      as (h1 & w1 & Hrest).
    destruct (Hall m (list_elem_of_here _ _) h1 w1) as (h2 & w2 & Hm).
    exists h2, w2. rewrite chain_cons.
    erewrite bind_returned by exact Hrest. exact Hm.
Qed.

Lemma chain_returns_witness :
  exists h' w',
    chain [tracer "A"; WrapMiddleware NotFoundHandler] (probe "H") sample_world
    = (Returned h', w').
Proof.
  apply chain_returns. intros m Hm h w.
  apply elem_of_cons in Hm as [-> | Hm].
  - eexists _, _. reflexivity.
  - apply list_elem_of_singleton in Hm as ->. eexists _, _. reflexivity.
Defined.

Lemma chain_wrapped (hs : list HandlerFunc) (h : HandlerFunc) (w : World) :
  chain (WrapMiddleware <$> hs) h w = (Returned (first_error hs h), w).
Proof.
  revert w. induction hs as [| hi hs IH]; intros w; [reflexivity |].
  rewrite fmap_cons, chain_cons.
  erewrite bind_returned by apply IH. reflexivity.
Qed.

(** X3.  A chain of handlers wrapped by [WrapMiddleware] runs them in
    declaration order and stops at the first one that returns an error;
    the terminal handler runs only if all of them returned nil. *)
Theorem chain_WrapMiddleware_first_error (hs : list HandlerFunc)
    (h : HandlerFunc) (w : World) :
  chain (WrapMiddleware <$> hs) h w = (Returned (first_error hs h), w) /\
  (forall hi w0 w1 err,
      hi w0 = (Returned (Some err), w1) ->
      forall h', first_error (hi :: hs) h' w0 = (Returned (Some err), w1)) /\
  (forall hi w0 w1,
      hi w0 = (Returned None, w1) ->
      first_error (hi :: hs) h w0 = first_error hs h w1).
Proof.
  split; [| split].
  - apply chain_wrapped.
  - intros hi w0 w1 err Hhi h'. cbn [first_error foldr].
    erewrite bind_returned by exact Hhi. reflexivity.
  - intros hi w0 w1 Hhi. cbn [first_error foldr].
    erewrite bind_returned by exact Hhi. reflexivity.
Qed.

Lemma chain_WrapMiddleware_first_error_witness :
  first_error [probe "first"; NotFoundHandler; probe "third"] (probe "H")
              sample_world
  = (Returned (Some ErrNotFound), journal_add sample_world ["first"]%string).
Proof.
  destruct (chain_WrapMiddleware_first_error
              [NotFoundHandler; probe "third"] (probe "H") sample_world)
    as (_ & _ & Hnil).
  etransitivity;
    [exact (Hnil (probe "first") sample_world
                 (journal_add sample_world ["first"]%string) eq_refl) |].
  destruct (chain_WrapMiddleware_first_error
              [probe "third"] (probe "H") sample_world)
    as (_ & Herr & _).
  exact (Herr NotFoundHandler _ _ ErrNotFound eq_refl (probe "H")).
Defined.

(** ** Rendering errors *)

(** X4.  The default error handler writes at most once: run a second time,
    for whatever error, it leaves the response the first run produced. *)
Theorem DefaultHTTPErrorHandler_writes_once (err1 err2 : LeegoError)
    (w : World) (res : engine.Response) (req : engine.Request) :
  response (ctx w) = Some res ->
  request (ctx w) = Some req ->
  (_ ← DefaultHTTPErrorHandler err1; DefaultHTTPErrorHandler err2) w
  = DefaultHTTPErrorHandler err1 w.
Proof.
  intros Hres Hreq.
  pose proof (DefaultHTTPErrorHandler_run err1 w res Hres) as H1.
  rewrite Hreq in H1.
  destruct (engine.Committed res) eqn:Hc.
  - erewrite bind_returned by exact H1. rewrite H1.
    rewrite (DefaultHTTPErrorHandler_run err2 w res Hres), Hc. reflexivity.
  - erewrite bind_returned by exact H1. rewrite H1.
    destruct (String.eqb (engine.Method req) HEAD);
      erewrite DefaultHTTPErrorHandler_run by reflexivity; reflexivity.
Qed.

Lemma DefaultHTTPErrorHandler_writes_once_witness :
  (_ ← DefaultHTTPErrorHandler ErrNotFound;
   DefaultHTTPErrorHandler (OtherError "boom")) sample_world
  = (Returned tt,
     with_response sample_world (engine.mkResponse true 404 "Not Found")).
Proof.
  rewrite (DefaultHTTPErrorHandler_writes_once ErrNotFound (OtherError "boom")
             sample_world sample_response sample_request eq_refl eq_refl).
  reflexivity.
Defined.

(** X5.  The default error handler changes nothing but the response, which
    it leaves committed; and for an [HTTPError], whose [Error()] is its
    message, the debug flag makes no difference: an error made by
    [NewHTTPError] is rendered, when a body is written, with its code and
    with the first message given, or the status text of the code if none
    was. *)
Theorem DefaultHTTPErrorHandler_HTTPError_rendering (w : World)
    (res : engine.Response) (req : engine.Request) :
  response (ctx w) = Some res ->
  request (ctx w) = Some req ->
  (forall err, exists res',
      DefaultHTTPErrorHandler err w = (Returned tt, with_response w res') /\
      engine.Committed res' = true /\
      (engine.Committed res = true -> res' = res)) /\
  (forall he d,
      DefaultHTTPErrorHandler (IsHTTPError he) (with_debug d w)
      = (let '(r, w') := DefaultHTTPErrorHandler (IsHTTPError he) w in
         (r, with_debug d w'))) /\
  (forall code msgs,
      engine.Committed res = false ->
      engine.Method req <> HEAD ->
      DefaultHTTPErrorHandler (IsHTTPError (NewHTTPError code msgs)) w
      = (Returned tt,
         with_response w
           (engine.mkResponse true code
              (engine.Body res +:+ hd (http.StatusText code) msgs)))).
Proof.
  intros Hres Hreq. split; [| split].
  - intros err. rewrite (DefaultHTTPErrorHandler_run err w res Hres), Hreq.
    destruct (engine.Committed res) eqn:Hc.
    + exists res. split; [| split; [exact Hc | reflexivity]].
      f_equal. destruct w as [[rq rs pv dt lg] dbg jn]. cbn in *.
      unfold with_response. cbn. by rewrite Hres.
    + destruct (String.eqb (engine.Method req) HEAD);
        eexists; (split; [reflexivity | split; [reflexivity | discriminate]]).
  - intros he d.
    rewrite (DefaultHTTPErrorHandler_run (IsHTTPError he) w res Hres), Hreq.
    rewrite (DefaultHTTPErrorHandler_run (IsHTTPError he) (with_debug d w) res Hres).
    cbn [with_debug ctx]. rewrite Hreq.
    destruct (engine.Committed res); [reflexivity |].
    destruct (String.eqb (engine.Method req) HEAD); [reflexivity |].
    unfold error_text. cbn. destruct d, (leego_debug w); reflexivity.
  - intros code msgs Hc Hm.
    rewrite (DefaultHTTPErrorHandler_run _ w res Hres), Hreq, Hc.
    apply String.eqb_neq in Hm. rewrite Hm.
    unfold error_status, error_text, NewHTTPError.
    destruct msgs, (leego_debug w); reflexivity.
Qed.

Lemma DefaultHTTPErrorHandler_HTTPError_rendering_witness :
  DefaultHTTPErrorHandler
    (IsHTTPError (NewHTTPError 400 ["bad id"; "ignored"]%string)) sample_world
  = (Returned tt,
     with_response sample_world (engine.mkResponse true 400 "bad id")) /\
  DefaultHTTPErrorHandler (IsHTTPError (NewHTTPError 400 [])) sample_world
  = (Returned tt,
     with_response sample_world (engine.mkResponse true 400 "Bad Request")).
Proof.
  pose proof (proj2 (proj2 (DefaultHTTPErrorHandler_HTTPError_rendering
                              sample_world sample_response sample_request
                              eq_refl eq_refl))) as Hrender.
  split.
  - exact (Hrender 400 ["bad id"; "ignored"]%string eq_refl
                   ltac:(discriminate)).
  - exact (Hrender 400 [] eq_refl ltac:(discriminate)).
Defined.

(** ** Serving requests *)

Lemma first_error_stops (hs : list HandlerFunc) (w0 w1 : World)
    (r : option LeegoError) :
  first_error hs (panic "not reached") w0 = (Returned r, w1) ->
  forall h, first_error hs h w0 = (Returned r, w1).
Proof.
  revert w0. induction hs as [| hi hs IH]; intros w0 Hrun h.
  - discriminate Hrun.
  - cbn [first_error foldr] in *. unfold mbind, Go_bind in *.
    destruct (hi w0) as [[[err |] | reason] w']; [exact Hrun | | exact Hrun].
    apply IH. exact Hrun.
Qed.

(** X7.  When the premiddleware are wrapped handlers and one of them
    returns an error, the request ends there: the router is not consulted,
    so [ServeHTTP] gives the same result whatever the router would find. *)
Theorem ServeHTTP_premiddleware_error_skips_router {Tree : Type}
    (Find1 Find2 : Tree -> string -> string -> echoContext -> echoContext)
    (e : Leego Tree) (req : engine.Request) (res : engine.Response)
    (j : list string) (hs : list HandlerFunc) (r : option LeegoError)
    (w1 : World) :
  premiddleware e = WrapMiddleware <$> hs ->
  (let c := SetLang (engine.HeaderGet "Accept-Language" req)
                    (Reset req res (fst (pool_Get e))) in
   first_error hs (panic "not reached") (mkWorld (state c) (debug e) j)
   = (Returned r, w1)) ->
  ServeHTTP Find1 req res e j = ServeHTTP Find2 req res e j.
Proof.
  intros Hpre Hrun. unfold ServeHTTP.
  destruct (pool_Get e) as [c rest]. cbn [fst] in Hrun. cbv zeta in Hrun.
  unfold serve. rewrite Hpre.
  pose proof (first_error_stops hs _ _ _ Hrun) as Hstop.
  assert (Hsame : forall (F : Tree -> string -> string -> echoContext -> echoContext)
                         c0 (k : option LeegoError -> Go unit),
             (h ← chain (WrapMiddleware <$> hs) (routerHandler F e c0);
              err ← h; k err)
               (mkWorld
                  (state (SetLang (engine.HeaderGet "Accept-Language" req)
                                  (Reset req res c)))
                  (debug e) j)
             = k r w1).
  { intros F c0 k.
    erewrite bind_returned by apply chain_wrapped.
    erewrite bind_returned by apply Hstop. reflexivity. }
  rewrite !Hsame. reflexivity.
Qed.

Lemma ServeHTTP_premiddleware_error_skips_router_witness :
  ServeHTTP sample_Find sample_request sample_response
            (sample_leego [WrapMiddleware NotFoundHandler] []) []
  = ServeHTTP (fun (_ : unit) _ _ c => c) sample_request sample_response
              (sample_leego [WrapMiddleware NotFoundHandler] []) [].
Proof.
  refine (ServeHTTP_premiddleware_error_skips_router sample_Find _
            (sample_leego [WrapMiddleware NotFoundHandler] [])
            sample_request sample_response [] [NotFoundHandler]
            (Some ErrNotFound) _ eq_refl eq_refl).
Defined.

(** X8.  With no middleware and the default error handler, an error that
    the handler found by the router returns is rendered into the response
    of the request: on an uncommitted response to a request other than
    HEAD, the status of the error and its text after what the body held;
    the not-found handler gives 404 and "Not Found".  The user journal is
    untouched and the context goes back to the pool. *)
Theorem ServeHTTP_renders_handler_error {Tree : Type}
    (Router_Find : Tree -> string -> string -> echoContext -> echoContext)
    (e : Leego Tree) (req : engine.Request) (res : engine.Response)
    (j : list string) (H : HandlerFunc) (err : LeegoError) :
  premiddleware e = [] ->
  middleware e = [] ->
  httpErrorHandler e = DefaultHTTPErrorHandler ->
  (forall t m p c,
      handler (Router_Find t m p c) = H /\
      request (state (Router_Find t m p c)) = request (state c) /\
      response (state (Router_Find t m p c)) = response (state c)) ->
  (forall w, H w = (Returned (Some err), w)) ->
  engine.Committed res = false ->
  engine.Method req <> HEAD ->
  exists st,
    ServeHTTP Router_Find req res e j
    = (Returned tt,
       (with_pool (mkEchoContext st NotFoundHandler :: snd (pool_Get e)) e, j)) /\
    response st
    = Some (engine.mkResponse true (error_status err)
              (engine.Body res +:+ error_text (debug e) err)).
Proof.
  intros Hpre Hmw Heh Hfind HH Hc Hm.
  unfold ServeHTTP. destruct (pool_Get e) as [c rest]. cbn [snd].
  unfold serve. rewrite Hpre.
  erewrite bind_returned by apply chain_nil.
  unfold mbind at 1, Go_bind at 1.
  erewrite routerHandler_run by reflexivity. cbv zeta.
  rewrite Hmw.
  match goal with
  | |- context [Router_Find ?t ?m ?p ?c0] =>
      destruct (Hfind t m p c0) as (Hh & Hrq & Hrs);
      set (found := Router_Find t m p c0) in *
  end.
  rewrite Hh. erewrite bind_returned by apply chain_nil.
  rewrite HH. unfold ResponseHandler. rewrite Heh.
  cbn in Hrq, Hrs.
  erewrite DefaultHTTPErrorHandler_run by exact Hrs.
  rewrite Hc. cbn [ctx]. rewrite Hrq.
  apply String.eqb_neq in Hm. rewrite Hm.
  eexists. split; reflexivity.
Qed.

Lemma ServeHTTP_renders_handler_error_witness :
  exists st,
    ServeHTTP (fun (_ : unit) _ _ c => mkEchoContext (state c) NotFoundHandler)
              sample_request sample_response (sample_leego [] []) []
    = (Returned tt,
       (with_pool [mkEchoContext st NotFoundHandler] (sample_leego [] []), [])) /\
    response st = Some (engine.mkResponse true 404 "Not Found").
Proof.
  refine (ServeHTTP_renders_handler_error
            (fun (_ : unit) _ _ c => mkEchoContext (state c) NotFoundHandler)
            (sample_leego [] []) sample_request sample_response []
            NotFoundHandler ErrNotFound eq_refl eq_refl eq_refl
            (fun _ _ _ _ => conj eq_refl (conj eq_refl eq_refl))
            (fun _ => eq_refl) eq_refl _).
  discriminate.
Defined.

(** ** The route registry *)

Lemma add_routes {Tree : Type}
    (Router_Add : string -> string -> HandlerFunc -> Tree * nat -> Tree * nat)
    (method path : string) (handler : NamedHandler)
    (ms : list MiddlewareFunc) (e : Leego Tree) :
  routes (router (add Router_Add method path handler ms e))
  = <[method +:+ path := mkRoute method path (handlerName handler)]>
      (routes (router e)).
Proof.
  unfold add.
  destruct (Router_Add method path (routeHandler (func handler) ms)
                       (tree (router e), maxParam e)).
  reflexivity.
Qed.

Lemma add_frame {Tree : Type}
    (Router_Add : string -> string -> HandlerFunc -> Tree * nat -> Tree * nat)
    (method path : string) (handler : NamedHandler)
    (ms : list MiddlewareFunc) (e : Leego Tree) :
  let e' := add Router_Add method path handler ms e in
  premiddleware e' = premiddleware e /\
  middleware e' = middleware e /\
  httpErrorHandler e' = httpErrorHandler e /\
  httpSuccessHandler e' = httpSuccessHandler e /\
  pool e' = pool e /\
  debug e' = debug e.
Proof.
  unfold add.
  destruct (Router_Add method path (routeHandler (func handler) ms)
                       (tree (router e), maxParam e)).
  repeat split.
Qed.

(** X9.  [add] records the route under the key [method + path] and leaves
    every other key of the registry, the middleware lists, the pool and the
    result handlers as they were.  A later registration whose method and
    path concatenate to the same key replaces the entry, also when method
    and path themselves differ: of the earlier route the registry keeps
    nothing. *)
Theorem add_registry_entry {Tree : Type}
    (Router_Add : string -> string -> HandlerFunc -> Tree * nat -> Tree * nat)
    (method path : string) (handler : NamedHandler)
    (ms : list MiddlewareFunc) (e : Leego Tree) :
  let e' := add Router_Add method path handler ms e in
  routes (router e') !! (method +:+ path)
  = Some (mkRoute method path (handlerName handler)) /\
  (forall k, k <> method +:+ path ->
             routes (router e') !! k = routes (router e) !! k) /\
  premiddleware e' = premiddleware e /\
  middleware e' = middleware e /\
  pool e' = pool e /\
  (forall method2 path2 handler2 ms2,
      method2 +:+ path2 = method +:+ path ->
      routes (router (add Router_Add method2 path2 handler2 ms2 e'))
      = routes (router (add Router_Add method2 path2 handler2 ms2 e))).
Proof.
  intros e'. unfold e'.
  destruct (add_frame Router_Add method path handler ms e)
    as (Hpre & Hmw & _ & _ & Hpool & _).
  split; [| split; [| split; [| split; [| split]]]]; try assumption.
  - rewrite add_routes. apply lookup_insert_eq.
  - intros k Hk. rewrite add_routes. by apply lookup_insert_ne.
  - intros method2 path2 handler2 ms2 Hkey.
    rewrite !add_routes, Hkey. apply insert_insert_eq.
Qed.

Lemma add_registry_entry_witness :
  routes (router (add recording_Add "GET" "/a" main_h []
                      (add recording_Add "GE" "T/a"
                           (mkNamedHandler "main.other" (probe "O")) []
                           recording_leego)))
  = routes (router (add recording_Add "GET" "/a" main_h [] recording_leego)).
Proof.
  exact (proj2 (proj2 (proj2 (proj2 (proj2
    (add_registry_entry recording_Add "GE" "T/a"
       (mkNamedHandler "main.other" (probe "O")) [] recording_leego)))))
    "GET"%string "/a"%string main_h [] eq_refl).
Defined.

Lemma URI_named_path (m : gmap string Route) (rs : list Route)
    (handler : NamedHandler) (params : list any) (path : string) :
  range_order m rs ->
  (exists k r, m !! k = Some r /\ Handler r = handlerName handler) ->
  (forall k r, m !! k = Some r -> Handler r = handlerName handler ->
               Path r = path) ->
  URI rs handler params = uri_of_path path params.
Proof.
  intros Horder (k & r & Hk & Hname) Hall.
  unfold URI. rewrite URI_range_find.
  destruct (find_named_path rs (handlerName handler) path) as (r1 & -> & Hp).
  - exists r. split; [| exact Hname].
    apply (range_order_elem m rs r Horder). by exists k.
  - intros r' Hin Hn.
    apply (range_order_elem m rs r' Horder) in Hin as [k' Hk'].
    by apply (Hall k').
  - by rewrite Hp.
Qed.

(** X10.  Registering and reverse lookup: once a handler is added at
    [path], and provided the routes already registered under its name, if
    any, have the same path, [URI] of that handler is what the loop makes
    of [path], in whatever order the registry is visited. *)
Theorem URI_after_add {Tree : Type}
    (Router_Add : string -> string -> HandlerFunc -> Tree * nat -> Tree * nat)
    (method path : string) (handler : NamedHandler)
    (ms : list MiddlewareFunc) (e : Leego Tree)
    (rs : list Route) (params : list any) :
  (forall k r, routes (router e) !! k = Some r ->
               Handler r = handlerName handler -> Path r = path) ->
  range_order (routes (router (add Router_Add method path handler ms e))) rs ->
  URI rs handler params = uri_of_path path params.
Proof.
  intros Hold Horder.
  apply (URI_named_path _ rs handler params path Horder).
  - exists (method +:+ path), (mkRoute method path (handlerName handler)).
    split; [| reflexivity]. rewrite add_routes. apply lookup_insert_eq.
  - intros k r Hk Hn. rewrite add_routes in Hk.
    destruct (decide (method +:+ path = k)) as [<- | Hne].
    + rewrite lookup_insert_eq in Hk. by inversion Hk.
    + rewrite lookup_insert_ne in Hk by exact Hne. by apply (Hold k).
Qed.

Lemma URI_after_add_witness :
  URI [mkRoute "GET" "/users/:id" "main.h"] main_h [VInt 42]
  = "/users/42"%string.
Proof.
  refine (URI_after_add recording_Add "GET" "/users/:id" main_h []
            recording_leego [mkRoute "GET" "/users/:id" "main.h"] [VInt 42]
            _ _).
  - intros k r Hk.
    change (routes (router recording_leego)) with (∅ : gmap string Route) in Hk.
    rewrite lookup_empty in Hk. discriminate Hk.
  - unfold range_order. rewrite add_routes.
    change (routes (router recording_leego)) with (∅ : gmap string Route).
    rewrite insert_empty, map_to_list_singleton. reflexivity.
Defined.

Lemma string_app_inj_l (a b p : string) : a +:+ p = b +:+ p -> a = b.
Proof.
  intros Heq. apply (f_equal bytes) in Heq. rewrite !bytes_app in Heq.
  apply app_inv_tail in Heq.
  rewrite <- (string_of_bytes a), <- (string_of_bytes b). by rewrite Heq.
Qed.

Lemma Match_snoc {Tree : Type}
    (Router_Add : string -> string -> HandlerFunc -> Tree * nat -> Tree * nat)
    (meths : list string) (m : string) (path : string) (handler : NamedHandler)
    (ms : list MiddlewareFunc) (e : Leego Tree) :
  Match Router_Add (meths ++ [m]) path handler ms e
  = add Router_Add m path handler ms (Match Router_Add meths path handler ms e).
Proof. unfold Match. by rewrite foldl_app. Qed.

Lemma Match_lookup_in {Tree : Type}
    (Router_Add : string -> string -> HandlerFunc -> Tree * nat -> Tree * nat)
    (meths : list string) (path : string) (handler : NamedHandler)
    (ms : list MiddlewareFunc) (e : Leego Tree) (m : string) :
  m ∈ meths ->
  routes (router (Match Router_Add meths path handler ms e)) !! (m +:+ path)
  = Some (mkRoute m path (handlerName handler)).
Proof.
  induction meths as [| m' meths IH] using rev_ind; intros Hin.
  - by apply elem_of_nil in Hin.
  - rewrite Match_snoc, add_routes.
    destruct (decide (m' = m)) as [-> | Hne].
    + apply lookup_insert_eq.
    + rewrite lookup_insert_ne
        by (intros Heq; apply Hne; exact (string_app_inj_l _ _ _ Heq)).
      apply IH. apply elem_of_app in Hin as [Hin | Hin]; [exact Hin |].
      apply list_elem_of_singleton in Hin. congruence.
Qed.

Lemma Match_lookup_out {Tree : Type}
    (Router_Add : string -> string -> HandlerFunc -> Tree * nat -> Tree * nat)
    (meths : list string) (path : string) (handler : NamedHandler)
    (ms : list MiddlewareFunc) (e : Leego Tree) (k : string) :
  (forall m, m ∈ meths -> k <> m +:+ path) ->
  routes (router (Match Router_Add meths path handler ms e)) !! k
  = routes (router e) !! k.
Proof.
  induction meths as [| m' meths IH] using rev_ind; intros Hout.
  - reflexivity.
  - rewrite Match_snoc, add_routes.
    rewrite lookup_insert_ne.
    + apply IH. intros m Hin. apply Hout. apply elem_of_app. by left.
    + intros Heq. apply (Hout m'); [| by symmetry].
      apply elem_of_app. right. by apply list_elem_of_singleton.
Qed.

Lemma Match_lookup_inv {Tree : Type}
    (Router_Add : string -> string -> HandlerFunc -> Tree * nat -> Tree * nat)
    (meths : list string) (path : string) (handler : NamedHandler)
    (ms : list MiddlewareFunc) (e : Leego Tree) (k : string) (r : Route) :
  routes (router (Match Router_Add meths path handler ms e)) !! k = Some r ->
  routes (router e) !! k = Some r \/
  exists m, m ∈ meths /\ r = mkRoute m path (handlerName handler).
Proof.
  induction meths as [| m' meths IH] using rev_ind; intros Hk.
  - by left.
  - rewrite Match_snoc, add_routes in Hk.
    destruct (decide (m' +:+ path = k)) as [<- | Hne].
    + rewrite lookup_insert_eq in Hk. inversion Hk. right. exists m'.
      split; [| reflexivity]. apply elem_of_app. right.
      by apply list_elem_of_singleton.
    + rewrite lookup_insert_ne in Hk by exact Hne.
      destruct (IH Hk) as [Hold | (m & Hin & Hr)]; [by left |].
      right. exists m. split; [| exact Hr]. apply elem_of_app. by left.
Qed.

(** X11.  [Match] records one route per listed method, all with the given
    path and handler name, and changes no other key; [Any] does so for the
    nine methods.  A handler registered this way has a reverse URI that
    does not depend on the order in which the registry is visited, provided
    the routes already registered under its name, if any, have the same
    path. *)
Theorem Match_registers_each_method {Tree : Type}
    (Router_Add : string -> string -> HandlerFunc -> Tree * nat -> Tree * nat)
    (meths : list string) (path : string) (handler : NamedHandler)
    (ms : list MiddlewareFunc) (e : Leego Tree) :
  let e' := Match Router_Add meths path handler ms e in
  (forall m, m ∈ meths ->
             routes (router e') !! (m +:+ path)
             = Some (mkRoute m path (handlerName handler))) /\
  (forall k, (forall m, m ∈ meths -> k <> m +:+ path) ->
             routes (router e') !! k = routes (router e) !! k) /\
  (forall m, m ∈ methods ->
             routes (router (Any Router_Add path handler ms e)) !! (m +:+ path)
             = Some (mkRoute m path (handlerName handler))) /\
  (forall rs params,
      meths <> [] ->
      (forall k r, routes (router e) !! k = Some r ->
                   Handler r = handlerName handler -> Path r = path) ->
      range_order (routes (router e')) rs ->
      URI rs handler params = uri_of_path path params).
Proof.
  intros e'. unfold e'. split; [| split; [| split]].
  - intros m. apply Match_lookup_in.
  - intros k. apply Match_lookup_out.
  - intros m. apply Match_lookup_in.
  - intros rs params Hne Hold Horder.
    apply (URI_named_path _ rs handler params path Horder).
    + destruct meths as [| m meths]; [done |].
      exists (m +:+ path), (mkRoute m path (handlerName handler)).
      split; [| reflexivity]. apply Match_lookup_in. by left.
    + intros k r Hk Hn.
      destruct (Match_lookup_inv _ _ _ _ _ _ _ _ Hk) as [Hk' | (m & _ & ->)].
      * by apply (Hold k).
      * reflexivity.
Qed.

Lemma Match_registers_each_method_witness :
  routes (router (Any recording_Add "/ping" main_h [] recording_leego))
    !! "POST/ping"%string
  = Some (mkRoute "POST" "/ping" "main.h") /\
  forall rs,
    range_order
      (routes (router (Match recording_Add methods "/ping" main_h []
                             recording_leego))) rs ->
    URI rs main_h [] = "/ping"%string.
Proof.
  pose proof (Match_registers_each_method recording_Add methods "/ping"
                main_h [] recording_leego) as (_ & _ & Hany & Huri).
  split.
  - apply (Hany "POST"%string). unfold methods.
    repeat (first [apply list_elem_of_here | apply list_elem_of_further]).
  - intros rs Horder. apply (Huri rs [] ltac:(discriminate)); [| exact Horder].
    intros k r Hk.
    change (routes (router recording_leego)) with (∅ : gmap string Route) in Hk.
    rewrite lookup_empty in Hk. discriminate Hk.
Defined.

(** ** What the loop of [URI] does with a pattern *)

Lemma walk_no_colon (p : list ascii) (vals : list any) :
  ":"%char ∉ p -> walk false p vals = p.
Proof.
  intros Hp. rewrite <- (app_nil_r p) at 1.
  rewrite walk_static by exact Hp. cbn. by rewrite app_nil_r.
Qed.

Lemma count_colons_cons (b : ascii) (p : list ascii) :
  count_colons (b :: p)
  = ((if Ascii.eqb b ":" then 1 else 0) + count_colons p)%nat.
Proof.
  unfold count_colons. rewrite filter_cons.
  destruct (decide (b = ":"%char)) as [-> | Hne]; [reflexivity |].
  apply Ascii.eqb_neq in Hne. by rewrite Hne.
Qed.

Lemma walk_take (p : list ascii) :
  forall (skipping : bool) (vals : list any) (n : nat),
    (count_colons p <= n)%nat ->
    walk skipping p vals = walk skipping p (take n vals).
Proof.
  induction p as [| b p IH]; intros skipping vals n Hn; [reflexivity |].
  rewrite count_colons_cons in Hn. cbn [walk]. destruct skipping.
  - destruct (Ascii.eqb b "/").
    + f_equal. apply IH. lia.
    + apply IH. lia.
  - destruct (Ascii.eqb b ":") eqn:Hb.
    + destruct vals as [| v vs]; [by rewrite take_nil |].
      destruct n as [| n]; [lia |]. cbn [take]. f_equal. apply IH. lia.
    + f_equal. apply IH. lia.
Qed.

Lemma uri_of_path_eq (path : string) (params : list any) (l : list ascii) :
  walk false (bytes path) params = l ->
  uri_of_path path params = String.string_of_list_ascii l.
Proof. intros <-. apply uri_of_path_walk. Qed.

Lemma string_of_list_app (l1 l2 : list ascii) :
  String.string_of_list_ascii (l1 ++ l2)
  = String.string_of_list_ascii l1 +:+ String.string_of_list_ascii l2.
Proof.
  rewrite <- (string_of_bytes (_ +:+ _)). by rewrite bytes_app, !bytes_of_list.
Qed.

(** X12.  Without values, or on a pattern that holds no [:], the loop of
    [URI] returns the pattern as it is; and values beyond the number of
    [:] bytes of the pattern are never used. *)
Theorem uri_of_path_unchanged_and_surplus (path : string) (params : list any) :
  uri_of_path path [] = path /\
  (":"%char ∉ bytes path -> uri_of_path path params = path) /\
  (forall n, (count_colons (bytes path) <= n)%nat ->
             uri_of_path path params = uri_of_path path (take n params)).
Proof.
  split; [| split].
  - rewrite uri_of_path_walk, walk_no_vals. apply string_of_bytes.
  - intros Hp. rewrite uri_of_path_walk, walk_no_colon by exact Hp.
    apply string_of_bytes.
  - intros n Hn. rewrite !uri_of_path_walk. f_equal. by apply walk_take.
Qed.

Lemma uri_of_path_unchanged_and_surplus_witness :
  uri_of_path "/static/about" [VInt 1; VInt 2] = "/static/about"%string /\
  uri_of_path "/users/:id" [VInt 1; VInt 2] = uri_of_path "/users/:id" [VInt 1].
Proof.
  destruct (uri_of_path_unchanged_and_surplus "/static/about" [VInt 1; VInt 2])
    as (_ & Hstatic & _).
  destruct (uri_of_path_unchanged_and_surplus "/users/:id" [VInt 1; VInt 2])
    as (_ & _ & Hsurplus).
  split.
  - apply Hstatic. intros Hin. apply list_elem_of_In in Hin.
    vm_compute in Hin. intuition discriminate.
  - apply (Hsurplus 1%nat). vm_compute. lia.
Defined.

(** X13.  A [:] starts a parameter wherever it stands in the pattern, not
    only at the start of a segment: after a prefix free of [:], the bytes
    from the [:] up to the next [/] are replaced by the next value, the
    [/] is kept, and the loop goes on with the rest and the remaining
    values; at the end of the pattern the value closes the result. *)
Theorem uri_of_path_parameter_anywhere (prefix name rest : string)
    (v : any) (vs : list any) :
  ":"%char ∉ bytes prefix ->
  "/"%char ∉ bytes name ->
  uri_of_path (prefix +:+ ":" +:+ name +:+ "/" +:+ rest) (v :: vs)
  = prefix +:+ Sprintf_v v +:+ "/" +:+ uri_of_path rest vs /\
  uri_of_path (prefix +:+ ":" +:+ name) (v :: vs) = prefix +:+ Sprintf_v v.
Proof.
  intros Hprefix Hname. split.
  - rewrite (uri_of_path_eq _ _
               (bytes prefix ++ bytes (Sprintf_v v) ++ "/"%char
                  :: walk false (bytes rest) vs)).
    + rewrite !string_of_list_app, !string_of_bytes.
      change ("/"%char :: walk false (bytes rest) vs)
        with (["/"%char] ++ walk false (bytes rest) vs).
      rewrite string_of_list_app, <- uri_of_path_walk. reflexivity.
    + rewrite !bytes_app, walk_static by exact Hprefix.
      change (bytes ":") with [":"%char]. change (bytes "/") with ["/"%char].
      cbn [app walk]. replace (Ascii.eqb ":" ":") with true by reflexivity.
      by rewrite walk_skip_to_slash.
  - rewrite (uri_of_path_eq _ _ (bytes prefix ++ bytes (Sprintf_v v))).
    + by rewrite string_of_list_app, !string_of_bytes.
    + rewrite !bytes_app, walk_static by exact Hprefix.
      change (bytes ":") with [":"%char].
      cbn [app walk]. replace (Ascii.eqb ":" ":") with true by reflexivity.
      by rewrite walk_skip_end, app_nil_r.
Qed.

Lemma uri_of_path_parameter_anywhere_witness :
  uri_of_path "/files/v:rev/raw" [VInt 3] = "/files/v3/raw"%string.
Proof.
  refine (proj1 (uri_of_path_parameter_anywhere "/files/v" "rev" "raw"
                   (VInt 3) [] _ _)).
  - intros Hin. apply list_elem_of_In in Hin. vm_compute in Hin.
    intuition discriminate.
  - intros Hin. apply list_elem_of_In in Hin. vm_compute in Hin.
    intuition discriminate.
Defined.

(** ** More on the trailing-slash handlers *)

Lemma ends_with_slash_app (p : string) : ends_with_slash (p +:+ "/") = true.
Proof.
  unfold ends_with_slash. rewrite bytes_app.
  change (bytes "/") with ["/"%char]. by rewrite last_snoc.
Qed.

Lemma slice_to_last (p : string) :
  ends_with_slash p = true ->
  slice_to p (Z.of_nat (String.length p) - 1) +:+ "/" = p.
Proof.
  unfold ends_with_slash, slice_to. intros Hend.
  destruct (last (bytes p)) as [b |] eqn:Hlast; [| discriminate].
  apply Ascii.eqb_eq in Hend. subst b.
  apply last_Some in Hlast as [l' Hl'].
  rewrite <- bytes_length, Hl', length_app. cbn [length].
  replace (Z.to_nat (Z.of_nat (length l' + 1) - 1)) with (length l') by lia.
  rewrite take_app_length.
  rewrite <- (string_of_bytes p), Hl', string_of_list_app. reflexivity.
Qed.

Lemma slice_to_app (p : string) :
  slice_to (p +:+ "/") (Z.of_nat (String.length (p +:+ "/")) - 1) = p.
Proof.
  unfold slice_to. rewrite <- bytes_length, bytes_app, length_app.
  change (bytes "/") with ["/"%char]. cbn [length].
  replace (Z.to_nat (Z.of_nat (length (bytes p) + 1) - 1))
    with (length (bytes p)) by lia.
  rewrite take_app_length. apply string_of_bytes.
Qed.

Lemma app_slash_not_empty (p : string) : String.eqb (p +:+ "/") "" = false.
Proof. apply String.eqb_neq. destruct p; discriminate. Qed.

Lemma app_slash_not_root (p : string) :
  p <> EmptyString -> String.eqb (p +:+ "/") "/" = false.
Proof.
  intros Hp. apply String.eqb_neq. intros Heq.
  apply (string_app_inj_l p "" "/") in Heq. contradiction.
Qed.

(** X14.  In forward mode the rewriting is by exactly one slash.  On a
    non-empty path other than [/] that does not end in a slash,
    [AddTrailingSlash] appends one; on a path other than [/] that ends in
    a slash, [RemoveTrailingSlash] drops the last byte only, so [//]
    becomes [/].  In both cases the URI is the new path followed, if the
    query string is not empty, by [?] and the query string; method, query
    string and headers are as they were. *)
Theorem trailing_slash_forward_one_slash (Redirect : Z -> string -> HandlerFunc)
    (config : middleware.TrailingSlashConfig) (next : HandlerFunc)
    (w w1 : World) (req : engine.Request) :
  let path := engine.Path (engine.url req) in
  let qs := engine.QueryString (engine.url req) in
  let rewritten := fun path' : string =>
    engine.mkRequest (engine.Method req) (engine.mkURL path' qs)
      (if negb (String.eqb qs "") then path' +:+ "?" +:+ qs else path')
      (engine.Header req) in
  middleware.call_Skipper config w = (Returned false, w1) ->
  request (ctx w1) = Some req ->
  middleware.RedirectCode config = 0 ->
  path <> "/"%string ->
  (path <> EmptyString -> ends_with_slash path = false ->
   middleware.addTrailingSlash Redirect config next w
   = next (with_request w1 (rewritten (path +:+ "/")))) /\
  (ends_with_slash path = true ->
   exists path',
     path' +:+ "/" = path /\
     middleware.removeTrailingSlash Redirect config next w
     = next (with_request w1 (rewritten path'))).
Proof.
  intros path qs rewritten Hskip Hreq Hcode Hroot.
  apply String.eqb_neq in Hroot. split.
  - intros Hne Hend.
    rewrite (addTrailingSlash_run Redirect config next w w1 req Hskip Hreq).
    fold path qs. apply String.eqb_neq in Hne.
    rewrite Hne, Hroot, Hend, Hcode. reflexivity.
  - intros Hend.
    exists (slice_to path (Z.of_nat (String.length path) - 1)).
    split; [by apply slice_to_last |].
    rewrite (removeTrailingSlash_run Redirect config next w w1 req Hskip Hreq).
    fold path qs. rewrite Hroot, Hend, Hcode. reflexivity.
Qed.

Lemma trailing_slash_forward_one_slash_witness :
  exists path',
    path' +:+ "/" = "//"%string /\
    middleware.removeTrailingSlash sample_Redirect sample_config (probe "next")
      (with_request sample_world
         (engine.mkRequest "GET" (engine.mkURL "//" "") "//" ∅))
    = probe "next"
        (with_request sample_world
           (engine.mkRequest "GET" (engine.mkURL path' "") path' ∅)).
Proof.
  refine (proj2 (trailing_slash_forward_one_slash sample_Redirect sample_config
                   (probe "next")
                   (with_request sample_world
                      (engine.mkRequest "GET" (engine.mkURL "//" "") "//" ∅))
                   (with_request sample_world
                      (engine.mkRequest "GET" (engine.mkURL "//" "") "//" ∅))
                   (engine.mkRequest "GET" (engine.mkURL "//" "") "//" ∅)
                   eq_refl eq_refl eq_refl _) eq_refl).
  discriminate.
Defined.

(** X15.  [AddTrailingSlash] applied twice is [AddTrailingSlash] applied
    once, for every request and either mode, as long as the skipper only
    reads: the inner handler finds a path that ends in a slash, or is not
    reached. *)
Theorem addTrailingSlash_twice (Redirect : Z -> string -> HandlerFunc)
    (config : middleware.TrailingSlashConfig) (next : HandlerFunc) (w : World) :
  (forall w0, exists b, middleware.call_Skipper config w0 = (Returned b, w0)) ->
  middleware.addTrailingSlash Redirect config
    (middleware.addTrailingSlash Redirect config next) w
  = middleware.addTrailingSlash Redirect config next w.
Proof.
  intros Hpure. destruct (Hpure w) as [[|] Hskip].
  - unfold middleware.addTrailingSlash at 1.
    erewrite bind_returned by exact Hskip. reflexivity.
  - destruct (request (ctx w)) as [req |] eqn:Hreq.
    + pose proof (addTrailingSlash_run Redirect config next w w req Hskip Hreq)
        as Hone.
      rewrite (addTrailingSlash_run Redirect config
                 (middleware.addTrailingSlash Redirect config next)
                 w w req Hskip Hreq).
      cbv zeta in *. set (path := engine.Path (engine.url req)) in *.
      destruct (String.eqb path "") eqn:Hempty; [by rewrite Hone |].
      destruct (negb (String.eqb path "/") && negb (ends_with_slash path))
        eqn:Hcond; [| reflexivity].
      rewrite Hone.
      destruct (negb (middleware.RedirectCode config =? 0)); [reflexivity |].
      match goal with
      | |- middleware.addTrailingSlash _ _ _ ?w' = _ => set (w2 := w')
      end.
      destruct (Hpure w2) as [[|] Hskip2].
      * unfold middleware.addTrailingSlash.
        erewrite bind_returned by exact Hskip2. reflexivity.
      * erewrite (addTrailingSlash_run Redirect config next w2 w2)
          by (exact Hskip2 || reflexivity).
        cbn [engine.SetPath engine.SetURI engine.url engine.Path].
        rewrite app_slash_not_empty, ends_with_slash_app.
        by rewrite andb_false_r.
    + unfold middleware.addTrailingSlash.
      erewrite !bind_returned by exact Hskip. cbv beta iota.
      unfold Request_, mbind, Go_bind, get_ctx. rewrite Hreq. reflexivity.
Qed.

Lemma addTrailingSlash_twice_witness :
  middleware.addTrailingSlash sample_Redirect sample_config
    (middleware.addTrailingSlash sample_Redirect sample_config (probe "next"))
    sample_world
  = middleware.addTrailingSlash sample_Redirect sample_config (probe "next")
      sample_world.
Proof.
  apply addTrailingSlash_twice. intros w0. exists false. reflexivity.
Defined.

(** X16.  Removing after adding gives the path back: on a non-empty path
    other than [/] without a trailing slash, forward-mode
    [AddTrailingSlash] followed by forward-mode [RemoveTrailingSlash] calls
    [next] with the original path; the URI is then that path followed, if
    the query string is not empty, by [?] and the query string. *)
Theorem add_then_remove_trailing_slash (Redirect : Z -> string -> HandlerFunc)
    (config : middleware.TrailingSlashConfig) (next : HandlerFunc)
    (w : World) (req : engine.Request) :
  let path := engine.Path (engine.url req) in
  let qs := engine.QueryString (engine.url req) in
  (forall w0, middleware.call_Skipper config w0 = (Returned false, w0)) ->
  request (ctx w) = Some req ->
  middleware.RedirectCode config = 0 ->
  path <> EmptyString ->
  path <> "/"%string ->
  ends_with_slash path = false ->
  middleware.addTrailingSlash Redirect config
    (middleware.removeTrailingSlash Redirect config next) w
  = next (with_request w
            (engine.mkRequest (engine.Method req) (engine.mkURL path qs)
               (if negb (String.eqb qs "") then path +:+ "?" +:+ qs else path)
               (engine.Header req))).
Proof.
  intros path qs Hskip Hreq Hcode Hne Hroot Hend.
  rewrite (addTrailingSlash_run Redirect config _ w w req (Hskip w) Hreq).
  fold path qs. apply String.eqb_neq in Hroot.
  rewrite (proj2 (String.eqb_neq _ _) Hne), Hroot, Hend, Hcode.
  cbv zeta. cbn [negb andb Z.eqb].
  erewrite (removeTrailingSlash_run Redirect config next)
    by (apply Hskip || reflexivity).
  cbn [engine.SetPath engine.SetURI engine.url engine.Path
       engine.QueryString engine.Method engine.Header].
  fold path qs.
  rewrite app_slash_not_root by exact Hne.
  rewrite ends_with_slash_app, Hcode, slice_to_app.
  cbn [negb andb Z.eqb]. reflexivity.
Qed.

Lemma add_then_remove_trailing_slash_witness :
  middleware.addTrailingSlash sample_Redirect sample_config
    (middleware.removeTrailingSlash sample_Redirect sample_config
       (probe "next")) sample_world
  = probe "next"
      (with_request sample_world
         (engine.mkRequest "GET" (engine.mkURL "/a" "x=1") "/a?x=1" ∅)).
Proof.
  refine (add_then_remove_trailing_slash sample_Redirect sample_config
            (probe "next") sample_world sample_request
            (fun _ => eq_refl) eq_refl eq_refl _ _ eq_refl); discriminate.
Defined.

(** X17.  With a redirect code, a request whose path has to change is
    answered by [Redirect] with that code and the new URI, run on the
    request as it came in: the request is not rewritten, and [next] is not
    called, so the result is the same for every [next]. *)
Theorem trailing_slash_redirect_mode (Redirect : Z -> string -> HandlerFunc)
    (config : middleware.TrailingSlashConfig) (next : HandlerFunc)
    (w w1 : World) (req : engine.Request) :
  let path := engine.Path (engine.url req) in
  let qs := engine.QueryString (engine.url req) in
  let uri := fun path' : string =>
    if negb (String.eqb qs "") then path' +:+ "?" +:+ qs else path' in
  middleware.call_Skipper config w = (Returned false, w1) ->
  request (ctx w1) = Some req ->
  middleware.RedirectCode config <> 0 ->
  path <> "/"%string ->
  (path <> EmptyString -> ends_with_slash path = false ->
   middleware.addTrailingSlash Redirect config next w
   = Redirect (middleware.RedirectCode config) (uri (path +:+ "/")) w1) /\
  (ends_with_slash path = true ->
   middleware.removeTrailingSlash Redirect config next w
   = Redirect (middleware.RedirectCode config)
       (uri (slice_to path (Z.of_nat (String.length path) - 1))) w1).
Proof.
  intros path qs uri Hskip Hreq Hcode Hroot.
  apply String.eqb_neq in Hroot. apply Z.eqb_neq in Hcode. split.
  - intros Hne Hend.
    rewrite (addTrailingSlash_run Redirect config next w w1 req Hskip Hreq).
    fold path qs. apply String.eqb_neq in Hne.
    rewrite Hne, Hroot, Hend, Hcode. reflexivity.
  - intros Hend.
    rewrite (removeTrailingSlash_run Redirect config next w w1 req Hskip Hreq).
    fold path qs. rewrite Hroot, Hend, Hcode. reflexivity.
Qed.

Lemma trailing_slash_redirect_mode_witness :
  middleware.addTrailingSlash (fun code uri => probe uri)
    (middleware.mkTrailingSlashConfig (Some (mret false)) 301)
    (probe "next") sample_world
  = probe "/a/?x=1" sample_world.
Proof.
  refine (proj1 (trailing_slash_redirect_mode (fun code uri => probe uri)
                   (middleware.mkTrailingSlashConfig (Some (mret false)) 301)
                   (probe "next") sample_world sample_world sample_request
                   eq_refl eq_refl _ _) _ eq_refl); discriminate.
Defined.

(** X18.  A configuration without skipper gets the default skipper, so the
    handlers built by the two constructors never call a nil skipper; the
    redirect code is kept.  When the skipper answers true the handler is
    [next] on the heap the skipper left, whatever the path, the empty path
    included. *)
Theorem trailing_slash_skipper (defaultSkipper : middleware.Skipper)
    (Redirect : Z -> string -> HandlerFunc)
    (config : middleware.TrailingSlashConfig) (next : HandlerFunc) :
  middleware.call_Skipper (middleware.with_defaults defaultSkipper config)
  = default defaultSkipper (middleware.Skipper_ config) /\
  middleware.RedirectCode (middleware.with_defaults defaultSkipper config)
  = middleware.RedirectCode config /\
  (forall w w1,
      middleware.call_Skipper (middleware.with_defaults defaultSkipper config) w
      = (Returned true, w1) ->
      middleware.addTrailingSlash Redirect
        (middleware.with_defaults defaultSkipper config) next w = next w1 /\
      middleware.removeTrailingSlash Redirect
        (middleware.with_defaults defaultSkipper config) next w = next w1).
Proof.
  split; [| split].
  - unfold middleware.with_defaults.
    destruct (middleware.Skipper_ config) as [s |] eqn:Hs.
    + unfold middleware.call_Skipper. by rewrite Hs.
    + reflexivity.
  - unfold middleware.with_defaults.
    destruct (middleware.Skipper_ config); reflexivity.
  - intros w w1 Hskip. split.
    + unfold middleware.addTrailingSlash.
      erewrite bind_returned by exact Hskip. reflexivity.
    + unfold middleware.removeTrailingSlash.
      erewrite bind_returned by exact Hskip. reflexivity.
Qed.

Lemma trailing_slash_skipper_witness :
  middleware.addTrailingSlash sample_Redirect
    (middleware.with_defaults (mret true)
       (middleware.mkTrailingSlashConfig None 0))
    (probe "next") empty_path_world
  = probe "next" empty_path_world.
Proof.
  exact (proj1 (proj2 (proj2 (trailing_slash_skipper (mret true) sample_Redirect
           (middleware.mkTrailingSlashConfig None 0) (probe "next")))
         empty_path_world empty_path_world eq_refl)).
Defined.

(** X19.  A premiddleware that rewrites the path decides what the router
    looks up: with forward-mode [AddTrailingSlash] as the only
    premiddleware, the router is asked for the path with the slash
    appended, and the global middleware wrap the handler found there. *)
Theorem ServeHTTP_routes_rewritten_path {Tree : Type}
    (Router_Find : Tree -> string -> string -> echoContext -> echoContext)
    (defaultSkipper : middleware.Skipper)
    (Redirect : Z -> string -> HandlerFunc)
    (config : middleware.TrailingSlashConfig)
    (e : Leego Tree) (c : echoContext) (w w1 : World) (req : engine.Request) :
  let path := engine.Path (engine.url req) in
  let qs := engine.QueryString (engine.url req) in
  let req' :=
    engine.mkRequest (engine.Method req) (engine.mkURL (path +:+ "/") qs)
      (if negb (String.eqb qs "") then (path +:+ "/") +:+ "?" +:+ qs
       else path +:+ "/")
      (engine.Header req) in
  premiddleware e
  = [middleware.AddTrailingSlashWithConfig defaultSkipper Redirect config] ->
  middleware.call_Skipper (middleware.with_defaults defaultSkipper config) w
  = (Returned false, w1) ->
  request (ctx w1) = Some req ->
  middleware.RedirectCode config = 0 ->
  path <> EmptyString ->
  path <> "/"%string ->
  ends_with_slash path = false ->
  (h ← chain (premiddleware e) (routerHandler Router_Find e c); h) w
  = (let c' := Router_Find (tree (router e)) (engine.Method req)
                           (path +:+ "/")
                           (mkEchoContext (ctx (with_request w1 req'))
                                          (handler c)) in
     (h ← chain (middleware e) (handler c'); h)
       (mkWorld (state c') (leego_debug w1) (journal w1))).
Proof.
  intros path qs req' Hpre Hskip Hreq Hcode Hne Hroot Hend.
  rewrite Hpre.
  assert (Hchain :
    chain [middleware.AddTrailingSlashWithConfig defaultSkipper Redirect config]
          (routerHandler Router_Find e c) w
    = (Returned (middleware.addTrailingSlash Redirect
                   (middleware.with_defaults defaultSkipper config)
                   (routerHandler Router_Find e c)), w)) by reflexivity.
  erewrite bind_returned by exact Hchain.
  rewrite (addTrailingSlash_run Redirect _ _ w w1 req Hskip Hreq).
  fold path qs. apply String.eqb_neq in Hne. apply String.eqb_neq in Hroot.
  rewrite Hne, Hroot, Hend.
  replace (middleware.RedirectCode
             (middleware.with_defaults defaultSkipper config)) with 0
    by (unfold middleware.with_defaults;
        destruct (middleware.Skipper_ config); symmetry; exact Hcode).
  cbv zeta. cbn [negb andb Z.eqb].
  erewrite routerHandler_run by reflexivity.
  reflexivity.
Qed.

Lemma ServeHTTP_routes_rewritten_path_witness :
  (h ← chain [middleware.AddTrailingSlash (mret false) sample_Redirect]
             (routerHandler
                (fun (_ : unit) m p c => mkEchoContext (state c) (probe p))
                (sample_leego
                   [middleware.AddTrailingSlash (mret false) sample_Redirect] [])
                (mkEchoContext (ctx sample_world) NotFoundHandler)); h)
    sample_world
  = (Returned None,
     journal_add
       (with_request sample_world
          (engine.mkRequest "GET" (engine.mkURL "/a/" "x=1") "/a/?x=1" ∅))
       ["/a/"]%string).
Proof.
  refine (ServeHTTP_routes_rewritten_path
            (fun (_ : unit) m p c => mkEchoContext (state c) (probe p))
            (mret false) sample_Redirect
            (middleware.mkTrailingSlashConfig None 0)
            (sample_leego
               [middleware.AddTrailingSlash (mret false) sample_Redirect] [])
            (mkEchoContext (ctx sample_world) NotFoundHandler)
            sample_world sample_world sample_request
            eq_refl eq_refl eq_refl eq_refl _ _ eq_refl); discriminate.
Defined.
